(** * SmartPronote: the portal client cache of [src/utils/pronote.ts] and the
    task-list helper script, embedded and verified.

    The embedding follows the TypeScript source.  The five [Map]s of [caches]
    are finite maps keyed by username, [setTimeout] callbacks are entries of a
    timer queue kept in the state, due after the delay that the runtime
    (Node.js) gives a timer, and every [await] is a point at which an
    [async] function is suspended: what runs before it and what runs after it
    are separate steps of the event loop, so that calls may overlap exactly as
    they may in the JavaScript program.  The replies of the pawnote library and
    of the task API are inputs of the model. *)

From Stdlib Require Import ZArith QArith_base Lia.
From stdpp Require Import base option list gmap strings.

Local Open Scope Z_scope.

(** ** JavaScript values and operators *)

Module Js.

(** A [number]: the code copies numbers and tests them for truthiness, it
    never computes with them (dates apart, which are integers). *)
Inductive number :=
| NaN
| Num (q : Q).

Definition of_Z (z : Z) : number := Num (inject_Z z).

(** [0], [-0] and [NaN] are the falsy numbers. *)
Definition truthy_number (n : number) : bool :=
  match n with
  | NaN => false
  | Num q => negb (Qnum q =? 0)
  end.

(** The empty string is the falsy string. *)
Definition truthy_string (s : string) : bool :=
  negb (String.eqb s "").

(** [false] is the falsy boolean. *)
Definition truthy_bool (b : bool) : bool := b.

(** Objects ([Date]s and arrays among them) are always truthy. *)
Definition truthy_object {A} (_ : A) : bool := true.

(** [a || d], for a field [a] that may be [undefined] or [null]. *)
Definition or_else {A} (truthy : A → bool) (a : option A) (d : A) : A :=
  match a with
  | Some x => if truthy x then x else d
  | None => d
  end.

(** [a ?? d]. *)
Definition nullish {A} (a : option A) (d : A) : A :=
  match a with
  | Some x => x
  | None => d
  end.

(** [a?.f], for a field [f] that may itself be missing. *)
Definition chain {A B} (a : option A) (f : A → option B) : option B :=
  match a with
  | Some x => f x
  | None => None
  end.

(** What an awaited promise settles to. *)
Inductive Error := MkError (message : string).

Inductive Settled (A : Type) :=
| Resolved (a : A)
| Rejected (e : Error).
Arguments Resolved {A} a.
Arguments Rejected {A} e.

(** [p.catch(() => null)], awaited. *)
Definition catch_null {A} (p : Settled A) : option A :=
  match p with
  | Resolved a => Some a
  | Rejected _ => None
  end.

(** How a call of an [async] function ends for its caller. *)
Inductive Completion (A : Type) :=
| Returned (a : A)
| Thrown (e : Error).
Arguments Returned {A} a.
Arguments Thrown {A} e.

End Js.

Import Js.

(** A [Date] is its time value, in milliseconds; [new Date()] reads the
    clock of the state and [new Date(t)] is [t]. *)
Abbreviation Date := Z (only parsing).

(** Where the code builds a [Date] from the time value of a [Date] that the
    library returned, both are [DateObject]s: an Invalid Date, whose time
    value is NaN, or a date whose time value is a whole number of
    milliseconds.  The time value of a date is at most 8.64e15 ms away from
    the epoch. *)
Inductive DateObject :=
| InvalidDate
| DateAt (t : Z).

Definition maxTimeValue : Z := 8640000000000000.

(** [d.getTime()], a number: [None] is NaN. *)
Definition timeValue (d : DateObject) : option Z :=
  match d with
  | InvalidDate => None
  | DateAt t => Some t
  end.

(** [new Date(value)] for a number [value] that is NaN or whole: the date
    is invalid when the value is NaN or out of the range of time values. *)
Definition dateOfValue (value : option Z) : DateObject :=
  match value with
  | Some t =>
      if decide (- maxTimeValue ≤ t ≤ maxTimeValue) then DateAt t
      else InvalidDate
  | None => InvalidDate
  end.

(** ** What the pawnote library returns *)

Module Mark.
Record t := Make {
  average : option number;
  coefficient : option number;
  comment : option string;
  date : option Date;
  max : option number;
  min : option number;
  scale : option number;
  value : option number;
}.
End Mark.

Module Subject.
Record t := Make {
  name : string;
  grades : option (list Mark.t);
}.
End Subject.

Module GradeBook.
Record t := Make {
  subjects : option (list Subject.t);
}.
End GradeBook.

(** [v.subject] and [v.teacher]: an object with a [name]. *)
Module Named.
Record t := Make {
  name : option string;
}.
End Named.

Module Lesson.
Record t := Make {
  start : Date;
  classroom : option string;
  subject : option Named.t;
  teacher : option Named.t;
  end_ : Date;
  isCancelled : option bool;
}.
End Lesson.

Module Attachment.
Record t := Make {
  name : string;
  url : string;
}.
End Attachment.

Module Assignment.
Record t := Make {
  description : option string;
  date : DateObject;
  attachments : option (list Attachment.t);
  givenAt : option Date;
  subject : option Named.t;
  done : option bool;
}.
End Assignment.

Module Average.
Record t := Make {
  value : option number;
}.
End Average.

Module Overview.
Record t := Make {
  studentAverage : option Average.t;
  classAverage : option Average.t;
}.
End Overview.

(** ** The result types of [../types], as the code builds them *)

Module Grade.
(** The object literal [grade]. *)
Record fields := Fields {
  subject : string;
  average : number;
  coefficient : number;
  comment : string;
  date : Date;
  best : number;
  worst : number;
  scale : number;
  value : number;
}.
(** [{ ...grade, hash: hashGrade(grade) }]. *)
Record t := Make {
  grade : fields;
  hash : string;
}.
End Grade.

Coercion Grade.grade : Grade.t >-> Grade.fields.

Module Slot.
Record t := Make {
  from : Date;
  room : string;
  subject : string;
  teacher : string;
  to : Date;
  absent : bool;
  cancelled : bool;
}.
End Slot.

Module File.
Record t := Make {
  name : string;
  url : string;
}.
End File.

Module Homework.
(** The object literal [homework]. *)
Record fields := Fields {
  content : string;
  due : DateObject;
  files : list File.t;
  givenAt : Date;
  subject : string;
  done : bool;
}.
(** [{ ...homework, hash: hashHomework(homework) }]. *)
Record t := Make {
  homework : fields;
  hash : string;
}.
End Homework.

Coercion Homework.homework : Homework.t >-> Homework.fields.

Module Averages.
Record t := Make {
  value : number;
  everyone : number;
}.
End Averages.

Abbreviation Grades := (list Grade.t) (only parsing).
Abbreviation Timetable := (list Slot.t) (only parsing).
Abbreviation Homeworks := (list Homework.t) (only parsing).

(** ** The modules the file imports but the repository does not show *)

Module Account.
Record t := Make {
  url : string;
  username : string;
  password : string;
}.
End Account.

Module Config.
Record t := Make {
  refreshEvery : Z;
  accountTimeout : Z;
}.
End Config.

(** [./config], [./hashing] and [./locale]. *)
Class Imports := {
  config : Config.t;
  hashGrade : Grade.fields → string;
  hashHomework : Homework.fields → string;
  SubjectNames : gmap string string;
}.

(** ** The state of the module *)

(** A session handle is an object: only its identity matters. *)
Abbreviation SessionHandle := nat (only parsing).

Record Caches := MkCaches {
  sessions : gmap string SessionHandle;
  grades : gmap string Grades;
  timetable : gmap string Timetable;
  homeworks : gmap string Homeworks;
  averages : gmap string Averages.t;
}.

Inductive CacheName := CSessions | CGrades | CTimetable | CHomeworks | CAverages.

(** The callbacks handed to [setTimeout]. *)
Inductive Callback :=
| SessionExpires
| DeleteKey (c : CacheName) (key : string).

#[global] Instance CacheName_eq_dec : EqDecision CacheName.
Proof. solve_decision. Defined.

#[global] Instance Callback_eq_dec : EqDecision Callback.
Proof. solve_decision. Defined.

Module Timer.
Record t := Make {
  due : Z;
  callback : Callback;
}.
End Timer.

(** The calls made to the pawnote library, in the order they are made.  The
    periods and intervals passed along are left out: they are computed from
    the calendar and neither the caches nor the results depend on them. *)
Inductive LibCall :=
| CreateSessionHandle
| LoginCredentials (session : SessionHandle) (account : Account.t)
| Gradebook (session : SessionHandle)
| TimetableFromIntervals (session : SessionHandle)
| AssignmentsFromIntervals (session : SessionHandle)
| GradesOverview (session : SessionHandle).

(** An [async] call suspended at its [await], with what its continuation
    still needs. *)
Inductive Suspended :=
| AwaitLogin (account : Account.t) (session : SessionHandle)
| AwaitGradebook (username : string)
| AwaitTimetable (username : string)
| AwaitAssignments (username : string)
| AwaitOverview (username : string).

(** The five caches, the clock, the timers that are pending, the library
    calls made so far, the number of session handles created so far and the
    calls that wait for the library. *)
Record State := MkState {
  caches : Caches;
  now : Z;
  timers : list Timer.t;
  calls : list LibCall;
  created : nat;
  suspended : list Suspended;
}.

Definition with_caches (f : Caches → Caches) (st : State) : State :=
  {| caches := f (caches st); now := now st; timers := timers st;
     calls := calls st; created := created st; suspended := suspended st |}.

(** The longest delay of a timer: [2 ** 31 - 1] ms. *)
Definition TIMEOUT_MAX : Z := 2147483647.

(** The delay a timer gets: the runtime (Node.js) takes a delay that is
    below 1 ms or above [TIMEOUT_MAX] as 1 ms. *)
Definition timerDelay (after : Z) : Z :=
  if decide (1 ≤ after ≤ TIMEOUT_MAX) then after else 1.

(** [setTimeout(callback, delay)]. *)
Definition setTimeout (callback : Callback) (delay : Z) (st : State) : State :=
  {| caches := caches st; now := now st;
     timers := timers st ++ [Timer.Make (now st + timerDelay delay) callback];
     calls := calls st; created := created st; suspended := suspended st |}.

(** A call to the library is recorded. *)
Definition call (c : LibCall) (st : State) : State :=
  {| caches := caches st; now := now st; timers := timers st;
     calls := calls st ++ [c]; created := created st;
     suspended := suspended st |}.

Definition suspend (s : Suspended) (st : State) : State :=
  {| caches := caches st; now := now st; timers := timers st;
     calls := calls st; created := created st;
     suspended := suspended st ++ [s] |}.

Definition wake (i : nat) (st : State) : State :=
  {| caches := caches st; now := now st; timers := timers st;
     calls := calls st; created := created st;
     suspended := delete i (suspended st) |}.

Definition set_sessions (f : gmap string SessionHandle → gmap string SessionHandle)
    (c : Caches) : Caches :=
  {| sessions := f (sessions c); grades := grades c; timetable := timetable c;
     homeworks := homeworks c; averages := averages c |}.

Definition set_grades (f : gmap string Grades → gmap string Grades)
    (c : Caches) : Caches :=
  {| sessions := sessions c; grades := f (grades c); timetable := timetable c;
     homeworks := homeworks c; averages := averages c |}.

Definition set_timetable (f : gmap string Timetable → gmap string Timetable)
    (c : Caches) : Caches :=
  {| sessions := sessions c; grades := grades c; timetable := f (timetable c);
     homeworks := homeworks c; averages := averages c |}.

Definition set_homeworks (f : gmap string Homeworks → gmap string Homeworks)
    (c : Caches) : Caches :=
  {| sessions := sessions c; grades := grades c; timetable := timetable c;
     homeworks := f (homeworks c); averages := averages c |}.

Definition set_averages (f : gmap string Averages.t → gmap string Averages.t)
    (c : Caches) : Caches :=
  {| sessions := sessions c; grades := grades c; timetable := timetable c;
     homeworks := homeworks c; averages := f (averages c) |}.

(** ** The operations of [pronote.ts] *)

Section Pronote.

Context `{Imports}.

(** Deleting cache entry 30 seconds before refresh. *)
Definition cacheTtl : Z := Config.refreshEvery config - 30 * 1000.

(** The key that [SubjectNames[name]] reads when [name] may be
    [undefined]. *)
Definition property_key (name : option string) : string :=
  nullish name "undefined".

(** *** getSession *)

(** [createSessionHandle()]: a new object. *)
Definition createSessionHandle (st : State) : State * SessionHandle :=
  ({| caches := caches st; now := now st; timers := timers st;
      calls := calls st ++ [CreateSessionHandle];
      created := S (created st); suspended := suspended st |},
   created st).

(** Up to the [await]; the flag tells whether the function has returned
    (with the cached handle) or is suspended on the login.  Of the login
    request the record of calls keeps the handle and the account; the kind
    and the random device identifier are left out. *)
Definition getSession_begin (account : Account.t) (st : State)
    : State * SessionHandle * bool :=
  match sessions (caches st) !! Account.username account with
  | Some cached => (st, cached, true)
  | None =>
      let '(st, session) := createSessionHandle st in
      (call (LoginCredentials session account) st, session, false)
  end.

(** After the [await]. *)
Definition getSession_resume (account : Account.t) (session : SessionHandle)
    (login : Settled unit) (st : State) : State * Completion SessionHandle :=
  match login with
  | Rejected e => (st, Thrown e)
  | Resolved _ =>
      let st := setTimeout SessionExpires
                  (Config.accountTimeout config) st in
      let st := with_caches
                  (set_sessions (insert (Account.username account) session))
                  st in
      let st := setTimeout (DeleteKey CSessions (Account.username account))
                  (Config.accountTimeout config - 2 * 60 * 1000) st in
      (st, Returned session)
  end.

Definition getSession (account : Account.t) (login : Settled unit)
    (st : State) : State * Completion SessionHandle :=
  match getSession_begin account st with
  | (st, cached, true) => (st, Returned cached)
  | (st, session, false) => getSession_resume account session login st
  end.

(** *** getGrades *)

Definition gradeOf (today : Date) (subject : Subject.t) (mark : Mark.t)
    : Grade.t :=
  let grade :=
    {| Grade.subject :=
         nullish (SubjectNames !! Subject.name subject) (Subject.name subject);
       Grade.average := or_else truthy_number (Mark.average mark) (of_Z 0);
       Grade.coefficient :=
         or_else truthy_number (Mark.coefficient mark) (of_Z 1);
       Grade.comment := or_else truthy_string (Mark.comment mark) "";
       Grade.date := or_else truthy_object (Mark.date mark) today;
       Grade.best := or_else truthy_number (Mark.max mark) (of_Z 20);
       Grade.worst := or_else truthy_number (Mark.min mark) (of_Z 0);
       Grade.scale := or_else truthy_number (Mark.scale mark) (of_Z 20);
       Grade.value := or_else truthy_number (Mark.value mark) (of_Z 0) |} in
  Grade.Make grade (hashGrade grade).

(** The inner loop: one [push] per mark. *)
Definition pushMarks (today : Date) (subject : Subject.t)
    (grades : Grades) (marks : list Mark.t) : Grades :=
  foldl (λ grades mark, grades ++ [gradeOf today subject mark]) grades marks.

(** The outer loop, over [raw?.subjects ?? []]. *)
Definition pushSubjects (today : Date) (grades : Grades)
    (subjects : list Subject.t) : Grades :=
  foldl (λ grades subject,
           pushMarks today subject grades (nullish (Subject.grades subject) []))
        grades subjects.

Definition getGrades_begin (username : string) (session : SessionHandle)
    (st : State) : State * option Grades :=
  match grades (caches st) !! username with
  | Some cached => (st, Some cached)
  | None => (call (Gradebook session) st, None)
  end.

Definition getGrades_resume (username : string) (raw : option GradeBook.t)
    (st : State) : State * Grades :=
  let grades :=
    pushSubjects (now st) [] (nullish (chain raw GradeBook.subjects) []) in
  let st :=
    match raw with
    | Some _ =>
        (* Don't add to cache if request went wrong *)
        let st := with_caches (set_grades (insert username grades)) st in
        setTimeout (DeleteKey CGrades username) cacheTtl st
    | None => st
    end in
  (st, grades).

Definition getGrades (username : string) (session : SessionHandle)
    (reply : Settled GradeBook.t) (st : State) : State * Completion Grades :=
  match getGrades_begin username session st with
  | (st, Some cached) => (st, Returned cached)
  | (st, None) =>
      let '(st, grades) := getGrades_resume username (catch_null reply) st in
      (st, Returned grades)
  end.

(** *** getTimetable *)

Definition slotOf (v : Lesson.t) : Slot.t :=
  let name := chain (Lesson.subject v) Named.name in
  {| Slot.from := Lesson.start v;
     Slot.room := or_else truthy_string (Lesson.classroom v) "";
     Slot.subject :=
       nullish (SubjectNames !! property_key name) (nullish name "");
     Slot.teacher :=
       or_else truthy_string (chain (Lesson.teacher v) Named.name) "";
     Slot.to := Lesson.end_ v;
     Slot.absent := or_else truthy_bool (Lesson.isCancelled v) false;
     Slot.cancelled := or_else truthy_bool (Lesson.isCancelled v) false |}.

Definition getTimetable_begin (username : string) (session : SessionHandle)
    (st : State) : State * option Timetable :=
  match timetable (caches st) !! username with
  | Some cached => (st, Some cached)
  | None => (call (TimetableFromIntervals session) st, None)
  end.

Definition getTimetable_resume (username : string)
    (raw : option (list Lesson.t)) (st : State) : State * Timetable :=
  let timetable := nullish (map slotOf <$> raw) [] in
  let st :=
    match raw with
    | Some _ =>
        let st := with_caches (set_timetable (insert username timetable)) st in
        setTimeout (DeleteKey CTimetable username) cacheTtl st
    | None => st
    end in
  (st, timetable).

Definition getTimetable (username : string) (session : SessionHandle)
    (reply : Settled (list Lesson.t)) (st : State)
    : State * Completion Timetable :=
  match getTimetable_begin username session st with
  | (st, Some cached) => (st, Returned cached)
  | (st, None) =>
      let '(st, timetable) :=
        getTimetable_resume username (catch_null reply) st in
      (st, Returned timetable)
  end.

(** *** getHomeworks *)

Definition fileOf (f : Attachment.t) : File.t :=
  {| File.name := Attachment.name f; File.url := Attachment.url f |}.

Definition homeworkOf (today : Date) (v : Assignment.t) : Homework.t :=
  let name := chain (Assignment.subject v) Named.name in
  let homework :=
    {| Homework.content :=
         or_else truthy_string (Assignment.description v) "";
       (* We add 3 hours because a homework is always for the day before
          its due at 11PM *)
       Homework.due :=
         dateOfValue
           ((λ t, t + 3 * 60 * 60 * 1000) <$> timeValue (Assignment.date v));
       Homework.files :=
         or_else truthy_object (map fileOf <$> Assignment.attachments v) [];
       Homework.givenAt :=
         or_else truthy_object (Assignment.givenAt v) today;
       Homework.subject :=
         nullish (SubjectNames !! property_key name) (nullish name "");
       Homework.done := or_else truthy_bool (Assignment.done v) false |} in
  Homework.Make homework (hashHomework homework).

Definition getHomeworks_begin (username : string) (session : SessionHandle)
    (st : State) : State * option Homeworks :=
  match homeworks (caches st) !! username with
  | Some cached => (st, Some cached)
  | None => (call (AssignmentsFromIntervals session) st, None)
  end.

Definition getHomeworks_resume (username : string)
    (raw : option (list Assignment.t)) (st : State) : State * Homeworks :=
  let homeworks := nullish (map (homeworkOf (now st)) <$> raw) [] in
  let st :=
    match raw with
    | Some _ =>
        let st := with_caches (set_homeworks (insert username homeworks)) st in
        setTimeout (DeleteKey CHomeworks username) cacheTtl st
    | None => st
    end in
  (st, homeworks).

Definition getHomeworks (username : string) (session : SessionHandle)
    (reply : Settled (list Assignment.t)) (st : State)
    : State * Completion Homeworks :=
  match getHomeworks_begin username session st with
  | (st, Some cached) => (st, Returned cached)
  | (st, None) =>
      let '(st, homeworks) :=
        getHomeworks_resume username (catch_null reply) st in
      (st, Returned homeworks)
  end.

(** *** getAverages *)

Definition getAverages_begin (username : string) (session : SessionHandle)
    (st : State) : State * option Averages.t :=
  match averages (caches st) !! username with
  | Some cached => (st, Some cached)
  | None => (call (GradesOverview session) st, None)
  end.

Definition getAverages_resume (username : string) (raw : option Overview.t)
    (st : State) : State * Averages.t :=
  let averages :=
    {| Averages.value :=
         nullish (chain (chain raw Overview.studentAverage) Average.value)
           (of_Z 0);
       Averages.everyone :=
         nullish (chain (chain raw Overview.classAverage) Average.value)
           (of_Z 0) |} in
  let st :=
    match raw with
    | Some _ =>
        let st := with_caches (set_averages (insert username averages)) st in
        setTimeout (DeleteKey CAverages username) cacheTtl st
    | None => st
    end in
  (st, averages).

Definition getAverages (username : string) (session : SessionHandle)
    (reply : Settled Overview.t) (st : State)
    : State * Completion Averages.t :=
  match getAverages_begin username session st with
  | (st, Some cached) => (st, Returned cached)
  | (st, None) =>
      let '(st, averages) :=
        getAverages_resume username (catch_null reply) st in
      (st, Returned averages)
  end.

End Pronote.

(** ** The event loop *)

(** What the rest of the program does with the module: it calls one of the
    exported functions, a pending library promise settles, or time passes. *)
Inductive Request :=
| GetSession (account : Account.t)
| GetGrades (username : string) (session : SessionHandle)
| GetTimetable (username : string) (session : SessionHandle)
| GetHomeworks (username : string) (session : SessionHandle)
| GetAverages (username : string) (session : SessionHandle).

Inductive Reply :=
| LoginReply (r : Settled unit)
| GradebookReply (r : Settled GradeBook.t)
| TimetableReply (r : Settled (list Lesson.t))
| AssignmentsReply (r : Settled (list Assignment.t))
| OverviewReply (r : Settled Overview.t).

Inductive Event :=
| Invoke (r : Request)
| Settle (i : nat) (r : Reply)
| Elapse (d : Z).

(** The value stored under a key, whichever cache it is in. *)
Inductive Entry :=
| ESession (session : SessionHandle)
| EGrades (grades : Grades)
| ETimetable (timetable : Timetable)
| EHomeworks (homeworks : Homeworks)
| EAverages (averages : Averages.t).

Definition lookup_entry (c : CacheName) (key : string) (cs : Caches)
    : option Entry :=
  match c with
  | CSessions => ESession <$> sessions cs !! key
  | CGrades => EGrades <$> grades cs !! key
  | CTimetable => ETimetable <$> timetable cs !! key
  | CHomeworks => EHomeworks <$> homeworks cs !! key
  | CAverages => EAverages <$> averages cs !! key
  end.

(** The cache and key that the continuation of a suspended call writes. *)
Definition target (s : Suspended) : CacheName * string :=
  match s with
  | AwaitLogin account _ => (CSessions, Account.username account)
  | AwaitGradebook username => (CGrades, username)
  | AwaitTimetable username => (CTimetable, username)
  | AwaitAssignments username => (CHomeworks, username)
  | AwaitOverview username => (CAverages, username)
  end.

(** Running a timer callback. *)
Definition fire (cb : Callback) (cs : Caches) : Caches :=
  match cb with
  | SessionExpires => cs
  | DeleteKey CSessions key => set_sessions (delete key) cs
  | DeleteKey CGrades key => set_grades (delete key) cs
  | DeleteKey CTimetable key => set_timetable (delete key) cs
  | DeleteKey CHomeworks key => set_homeworks (delete key) cs
  | DeleteKey CAverages key => set_averages (delete key) cs
  end.

(** The timers that are due run and leave the queue.  Their callbacks only
    delete keys, so the order in which the due ones run is immaterial. *)
Definition runTimers (st : State) : State :=
  {| caches :=
       foldl (λ cs tm, fire (Timer.callback tm) cs) (caches st)
             (filter (λ tm, Timer.due tm ≤ now st) (timers st));
     now := now st;
     timers := filter (λ tm, ¬ Timer.due tm ≤ now st) (timers st);
     calls := calls st; created := created st; suspended := suspended st |}.

Definition elapse (d : Z) (st : State) : State :=
  runTimers {| caches := caches st; now := now st + d; timers := timers st;
               calls := calls st; created := created st;
               suspended := suspended st |}.

Section EventLoop.

Context `{Imports}.

(** The delay that the code passes to [setTimeout] with the deletion of a
    key. *)
Definition deletionDelay (c : CacheName) : Z :=
  match c with
  | CSessions => Config.accountTimeout config - 2 * 60 * 1000
  | _ => cacheTtl
  end.

(** The time a cache keeps an entry: the delay its deletion timer gets. *)
Definition ttl (c : CacheName) : Z := timerDelay (deletionDelay c).

(** A call runs up to its [await], or to its [return] on a cache hit. *)
Definition invoke (r : Request) (st : State) : State :=
  match r with
  | GetSession account =>
      match getSession_begin account st with
      | (st, _, true) => st
      | (st, session, false) => suspend (AwaitLogin account session) st
      end
  | GetGrades username session =>
      match getGrades_begin username session st with
      | (st, Some _) => st
      | (st, None) => suspend (AwaitGradebook username) st
      end
  | GetTimetable username session =>
      match getTimetable_begin username session st with
      | (st, Some _) => st
      | (st, None) => suspend (AwaitTimetable username) st
      end
  | GetHomeworks username session =>
      match getHomeworks_begin username session st with
      | (st, Some _) => st
      | (st, None) => suspend (AwaitAssignments username) st
      end
  | GetAverages username session =>
      match getAverages_begin username session st with
      | (st, Some _) => st
      | (st, None) => suspend (AwaitOverview username) st
      end
  end.

(** The continuation of the [i]-th suspended call runs on the reply. *)
Definition resume (s : Suspended) (r : Reply) (st : State) : option State :=
  match s, r with
  | AwaitLogin account session, LoginReply r =>
      Some (getSession_resume account session r st).1
  | AwaitGradebook username, GradebookReply r =>
      Some (getGrades_resume username (catch_null r) st).1
  | AwaitTimetable username, TimetableReply r =>
      Some (getTimetable_resume username (catch_null r) st).1
  | AwaitAssignments username, AssignmentsReply r =>
      Some (getHomeworks_resume username (catch_null r) st).1
  | AwaitOverview username, OverviewReply r =>
      Some (getAverages_resume username (catch_null r) st).1
  | _, _ => None
  end.

Definition settle (i : nat) (r : Reply) (st : State) : option State :=
  match suspended st !! i with
  | Some s => resume s r (wake i st)
  | None => None
  end.

Definition step (e : Event) (st : State) : option State :=
  match e with
  | Invoke r => Some (invoke r st)
  | Settle i r => settle i r st
  | Elapse d => if decide (0 ≤ d) then Some (elapse d st) else None
  end.

Fixpoint run (evs : list Event) (st : State) : option State :=
  match evs with
  | [] => Some st
  | e :: evs =>
      match step e st with
      | Some st => run evs st
      | None => None
      end
  end.

(** Whether the library call behind a reply succeeded. *)
Definition resolved (r : Reply) : bool :=
  match r with
  | LoginReply (Resolved _) | GradebookReply (Resolved _)
  | TimetableReply (Resolved _) | AssignmentsReply (Resolved _)
  | OverviewReply (Resolved _) => true
  | _ => false
  end.

(** The entry under [key] in cache [c] is [e] from [st] on, at every
    later state in which the clock is still before [t]. *)
Definition kept_until (c : CacheName) (key : string) (e : Entry) (t : Z)
    (st : State) : Prop :=
  ∀ evs st', run evs st = Some st' → now st' < t →
             lookup_entry c key (caches st') = Some e.

(** Nothing is under way that could touch the key before its own timer:
    no deletion timer for it is pending and no suspended call will write
    it. *)
Definition quiet (c : CacheName) (key : string) (st : State) : Prop :=
  (∀ tm, tm ∈ timers st → Timer.callback tm ≠ DeleteKey c key) ∧
  (∀ s, s ∈ suspended st → target s ≠ (c, key)).

(** The cache and key that a call reads first. *)
Definition request_target (r : Request) : CacheName * string :=
  match r with
  | GetSession account => (CSessions, Account.username account)
  | GetGrades username _ => (CGrades, username)
  | GetTimetable username _ => (CTimetable, username)
  | GetHomeworks username _ => (CHomeworks, username)
  | GetAverages username _ => (CAverages, username)
  end.

(** Calls for one key that do not overlap: a call is made only when no
    suspended call is waiting to write the key it reads.  Calls for
    different keys may overlap, and a reply may take any time. *)
Definition admitted (e : Event) (st : State) : Prop :=
  match e with
  | Invoke r => ∀ s, s ∈ suspended st → target s ≠ request_target r
  | _ => True
  end.

Fixpoint apart (evs : list Event) (st : State) : Prop :=
  match evs with
  | [] => True
  | e :: evs =>
      admitted e st ∧
      match step e st with
      | Some st => apart evs st
      | None => True
      end
  end.

(** The states that such runs go through: the suspended calls wait to write
    different keys, none of which is in its cache; a key with a pending
    deletion is in its cache, and the deletions pending for one key are due
    at one time. *)
Definition orderly (st : State) : Prop :=
  NoDup (target <$> suspended st) ∧
  (∀ s, s ∈ suspended st →
        lookup_entry (target s).1 (target s).2 (caches st) = None) ∧
  (∀ tm c key, tm ∈ timers st → Timer.callback tm = DeleteKey c key →
               is_Some (lookup_entry c key (caches st))) ∧
  (∀ tm tm' c key, tm ∈ timers st → tm' ∈ timers st →
                   Timer.callback tm = DeleteKey c key →
                   Timer.callback tm' = DeleteKey c key →
                   Timer.due tm = Timer.due tm').

(** What keeps an entry in place up to time [t]: the deletions pending for
    its key are due at [t] or later, and no suspended call writes the
    key. *)
Definition settled_until (c : CacheName) (key : string) (e : Entry) (t : Z)
    (st : State) : Prop :=
  lookup_entry c key (caches st) = Some e ∧
  (∀ tm, tm ∈ timers st → Timer.callback tm = DeleteKey c key →
         t ≤ Timer.due tm) ∧
  (∀ s, s ∈ suspended st → target s ≠ (c, key)).

(** The logins that succeeded in a run: the handle and the account of each
    suspended [getSession] call whose login promise was resolved. *)
Definition login_of (e : Event) (st : State)
    : list (SessionHandle * Account.t) :=
  match e with
  | Settle i (LoginReply (Resolved _)) =>
      match suspended st !! i with
      | Some (AwaitLogin account session) => [(session, account)]
      | _ => []
      end
  | _ => []
  end.

Fixpoint logins (evs : list Event) (st : State)
    : list (SessionHandle * Account.t) :=
  match evs with
  | [] => []
  | e :: evs =>
      match step e st with
      | Some st' => login_of e st ++ logins evs st'
      | None => []
      end
  end.

End EventLoop.

(** The module when it is loaded, at time [t0]. *)
Definition initial (t0 : Z) : State :=
  {| caches := MkCaches ∅ ∅ ∅ ∅ ∅; now := t0; timers := [];
     calls := []; created := 0; suspended := [] |}.

(** ** The helper script [getTaskListId] *)

Module TaskLists.

(** An element of [response.data.items]. *)
Record TaskList := MkTaskList {
  title : option string;
  id : option string;
}.

(** What the [try] block can throw: an error of the file system, of the
    parser or of the API, or the [TypeError] of a property read on
    [undefined]. *)
Inductive Exception :=
| Failure (message : string)
| TypeError (reading : string).

(** The lines written on the console. *)
Inductive Line :=
| AvailableTaskLists
| Numbered (position : nat) (title id : option string)
| RecommendedTaskListId (id : option string)
| CopyThisId
| ErrorGettingTaskLists (e : Exception)
| MakeSure
| CredentialsExist
| ApiEnabled
| AccountPermitted.

(** Everything up to the [await] of [tasks.tasklists.list()]: it throws,
    or there is a response, whose [items] may be missing. *)
Inductive Listing :=
| Throws (e : Exception)
| Response (items : option (list TaskList)).

Definition isDefault (list : TaskList) : bool :=
  bool_decide (title list = Some "@default").

(** The [catch] block; the function then ends without a [return]. *)
Definition caught (console : list Line) (e : Exception)
    : list Line * option string :=
  (console ++ [ErrorGettingTaskLists e; MakeSure; CredentialsExist;
               ApiEnabled; AccountPermitted],
   None).

(** The console output and the returned value ([None] is [undefined]). *)
Definition getTaskListId (listing : Listing) : list Line * option string :=
  match listing with
  | Throws e => caught [] e
  | Response None => caught [AvailableTaskLists] (TypeError "forEach")
  | Response (Some items) =>
      let console :=
        AvailableTaskLists ::
        imap (λ index list, Numbered (index + 1) (title list) (id list))
             items in
      (* items.find(list => list.title === '@default') || items[0] *)
      let defaultList :=
        match List.find isDefault items with
        | Some list => Some list
        | None => head items
        end in
      match defaultList with
      | Some defaultList =>
          (console ++ [RecommendedTaskListId (id defaultList); CopyThisId],
           id defaultList)
      | None => caught console (TypeError "id")
      end
  end.

End TaskLists.

(** ** A concrete configuration, for the examples *)

Definition sampleImports : Imports :=
  {| config := Config.Make 60000 3600000;
     hashGrade := λ grade, (Grade.subject grade +:+ Grade.comment grade)%string;
     hashHomework := λ homework, Homework.content homework;
     SubjectNames := {[ "MATHS" := "Mathematics" ]} |}.

Definition sampleAccount : Account.t :=
  Account.Make "https://demo.index-education.net/pronote" "eleve" "secret".

Definition sampleMark : Mark.t :=
  {| Mark.average := Some (of_Z 11); Mark.coefficient := Some (of_Z 0);
     Mark.comment := None; Mark.date := None; Mark.max := Some (of_Z 0);
     Mark.min := Some (of_Z 4); Mark.scale := Some (of_Z 0);
     Mark.value := None |}.

Definition sampleGradeBook : GradeBook.t :=
  GradeBook.Make (Some [Subject.Make "MATHS" (Some [sampleMark])]).

Definition sampleLesson : Lesson.t :=
  {| Lesson.start := 1000; Lesson.classroom := Some "B12";
     Lesson.subject := Some (Named.Make (Some "MATHS"));
     Lesson.teacher := None; Lesson.end_ := 4600;
     Lesson.isCancelled := Some true |}.

Definition sampleAssignment : Assignment.t :=
  {| Assignment.description := Some "Exercise 3";
     Assignment.date := DateAt 86400000;
     Assignment.attachments := None; Assignment.givenAt := None;
     Assignment.subject := None; Assignment.done := None |}.

(** A configuration whose delays are longer than a timer can wait: the
    data caches are to keep an entry for [2 ** 31] ms. *)
Definition longImports : Imports :=
  {| config := Config.Make 2147513648 2147603648;
     hashGrade := λ grade, Grade.comment grade;
     hashHomework := λ homework, Homework.content homework;
     SubjectNames := ∅ |}.

(** Another account with the username of [sampleAccount]. *)
Definition otherAccount : Account.t :=
  Account.Make "https://other.example/pronote" "eleve" "wrong".

(** An assignment dated at the last time value there is. *)
Definition lastAssignment : Assignment.t :=
  {| Assignment.description := None; Assignment.date := DateAt maxTimeValue;
     Assignment.attachments := None; Assignment.givenAt := None;
     Assignment.subject := None; Assignment.done := None |}.

(** Two calls of [getGrades] for the same username that overlap: both miss
    the cache and are suspended on the library; the first reply arrives, and
    10 ms later the second one is about to. *)
Definition overlappingGrades : list Event :=
  [Invoke (GetGrades "eleve" 0); Invoke (GetGrades "eleve" 0);
   Settle 0 (GradebookReply (Resolved sampleGradeBook)); Elapse 10].

(** ** Predicates of the statements *)

(** A timetable entry that is marked absent exactly when it is marked
    cancelled. *)
Definition consistent (slot : Slot.t) : Prop :=
  Slot.absent slot = Slot.cancelled slot.

Definition timetables_consistent (cs : Caches) : Prop :=
  ∀ username cached, timetable cs !! username = Some cached →
                     Forall consistent cached.

(** ** Dates *)

(** The date arithmetic and the [Date] methods that the code calls, after the
    language specification, on time values in milliseconds.  The range limit
    of time values is left out.  Local time is the time value plus the offset
    [LocalTZA] of the zone, taken as constant: no change to or from daylight
    saving time falls between the dates involved. *)
Module JsDate.

Definition msPerDay : Z := 86400000.
Definition msPerHour : Z := 3600000.
Definition msPerMinute : Z := 60000.
Definition msPerSecond : Z := 1000.

Definition Day (t : Z) : Z := t / msPerDay.
Definition TimeWithinDay (t : Z) : Z := t mod msPerDay.

(** 0 is Sunday: day 0 was a Thursday. *)
Definition WeekDay (t : Z) : Z := (Day t + 4) mod 7.

Definition DaysInYear (y : Z) : Z :=
  if decide (y mod 4 ≠ 0) then 365
  else if decide (y mod 100 ≠ 0) then 366
  else if decide (y mod 400 ≠ 0) then 365
  else 366.

Definition DayFromYear (y : Z) : Z :=
  365 * (y - 1970) + (y - 1969) / 4 - (y - 1901) / 100 + (y - 1601) / 400.

(** The largest year that starts on day [d] or before: an estimate from the
    mean length of a year, corrected by one where needed. *)
Definition YearFromDay (d : Z) : Z :=
  let y := 1970 + (400 * d) / 146097 in
  if decide (d < DayFromYear y) then y - 1
  else if decide (DayFromYear (y + 1) ≤ d) then y + 1
  else y.

Definition YearFromTime (t : Z) : Z := YearFromDay (Day t).
Definition InLeapYear (t : Z) : Z := DaysInYear (YearFromTime t) - 365.
Definition DayWithinYear (t : Z) : Z := Day t - DayFromYear (YearFromTime t).

(** The day within the year on which month [m] (0 to 11) starts. *)
Definition monthStart (m leap : Z) : Z :=
  match m with
  | 0 => 0
  | 1 => 31
  | 2 => 59 + leap
  | 3 => 90 + leap
  | 4 => 120 + leap
  | 5 => 151 + leap
  | 6 => 181 + leap
  | 7 => 212 + leap
  | 8 => 243 + leap
  | 9 => 273 + leap
  | 10 => 304 + leap
  | _ => 334 + leap
  end.

Definition MonthFromTime (t : Z) : Z :=
  let d := DayWithinYear t in
  let leap := InLeapYear t in
  if decide (d < 31) then 0
  else if decide (d < 59 + leap) then 1
  else if decide (d < 90 + leap) then 2
  else if decide (d < 120 + leap) then 3
  else if decide (d < 151 + leap) then 4
  else if decide (d < 181 + leap) then 5
  else if decide (d < 212 + leap) then 6
  else if decide (d < 243 + leap) then 7
  else if decide (d < 273 + leap) then 8
  else if decide (d < 304 + leap) then 9
  else if decide (d < 334 + leap) then 10
  else 11.

Definition DateFromTime (t : Z) : Z :=
  DayWithinYear t - monthStart (MonthFromTime t) (InLeapYear t) + 1.

Definition HourFromTime (t : Z) : Z := (t / msPerHour) mod 24.
Definition MinFromTime (t : Z) : Z := (t / msPerMinute) mod 60.
Definition SecFromTime (t : Z) : Z := (t / msPerSecond) mod 60.
Definition msFromTime (t : Z) : Z := t mod msPerSecond.

Definition MakeTime (hour min sec ms : Z) : Z :=
  hour * msPerHour + min * msPerMinute + sec * msPerSecond + ms.

(** The day on which month [month] of [year] starts, plus [date - 1]. *)
Definition MakeDay (year month date : Z) : Z :=
  let ym := year + month / 12 in
  let mn := month mod 12 in
  DayFromYear ym + monthStart mn (DaysInYear ym - 365) + date - 1.

Definition MakeDate (day time : Z) : Z := day * msPerDay + time.

(** The offset of local time. *)
Class TimeZone := { LocalTZA : Z }.

Section Methods.

Context `{TimeZone}.

Definition LocalTime (t : Z) : Z := t + LocalTZA.
Definition UTC (t : Z) : Z := t - LocalTZA.

(** [new Date(year, month, date)]: midnight of that day in local time; a
    year from 0 to 99 stands for 1900 plus that year. *)
Definition newDate (year month date : Z) : Date :=
  let yr := if decide (0 ≤ year ≤ 99) then 1900 + year else year in
  UTC (MakeDate (MakeDay yr month date) (MakeTime 0 0 0 0)).

Definition getTime (d : Date) : Z := d.
Definition getFullYear (d : Date) : Z := YearFromTime (LocalTime d).
Definition getMonth (d : Date) : Z := MonthFromTime (LocalTime d).
Definition getDay (d : Date) : Z := WeekDay (LocalTime d).
Definition getDate (d : Date) : Z := DateFromTime (LocalTime d).
Definition getHours (d : Date) : Z := HourFromTime (LocalTime d).
Definition getMinutes (d : Date) : Z := MinFromTime (LocalTime d).
Definition getSeconds (d : Date) : Z := SecFromTime (LocalTime d).
Definition getMilliseconds (d : Date) : Z := msFromTime (LocalTime d).

(** [d.setDate(date)]: the date [d] has afterwards. *)
Definition setDate (date : Z) (d : Date) : Date :=
  let t := LocalTime d in
  UTC (MakeDate (MakeDay (YearFromTime t) (MonthFromTime t) date)
         (TimeWithinDay t)).

(** [d.setHours(hour, min, sec, ms)], the last three being optional. *)
Definition setHours (hour : Z) (min sec ms : option Z) (d : Date) : Date :=
  let t := LocalTime d in
  let m := nullish min (MinFromTime t) in
  let s := nullish sec (SecFromTime t) in
  let milli := nullish ms (msFromTime t) in
  UTC (MakeDate (Day t) (MakeTime hour m s milli)).

End Methods.

End JsDate.

(** The dates that [pronote.ts] computes from the clock. *)
Section Intervals.

Import JsDate.

Context `{TimeZone}.

Definition getCurrentMonday (now : Z) : Date :=
  let currentMonday := now in
  let currentMonday :=
    setDate (getDate currentMonday - getDay currentMonday + 1) currentMonday in
  let currentMonday :=
    setHours 1 (Some 0) (Some 0) (Some 0) currentMonday in
  currentMonday.

(** The start and the end of the period that [getGrades] and [getAverages]
    ask the library for. *)
Definition currentPeriod (now : Z) : Date * Date :=
  let startDate := newDate (getFullYear now) 8 1 in (* September 1st *)
  let endDate := newDate (getFullYear now + 1) 5 30 in (* June 30th next year *)
  (startDate, endDate).

(** The interval that [getTimetable] asks the library for. *)
Definition timetableInterval (now : Z) : Date * Date :=
  let currentMonday := getCurrentMonday now in
  let currentFriday :=
    (* We add 5 days so people that have lessons on saturday can see it *)
    getTime currentMonday + 5 * 24 * 3600 * 1000 in
  (currentMonday, currentFriday).

(** The interval that [getHomeworks] asks the library for. *)
Definition homeworksInterval (now : Z) : Date * Date :=
  let yesterday := now - 24 * 60 * 60 * 1000 in
  let yesterday := setHours 0 (Some 0) None None yesterday in
  let farAwayInTime :=
    (* 150 days in the future *)
    getTime yesterday + 151 * 24 * 3600 * 1000 in
  (yesterday, farAwayInTime).

End Intervals.

(** ** Invariants of the runs *)

Section Invariants.

Context `{Imports}.

(** Every key in a cache has a deletion pending, and every pending deletion
    is due within the delay of its cache. *)
Definition expiring (st : State) : Prop :=
  (∀ c key, is_Some (lookup_entry c key (caches st)) →
            ∃ tm, tm ∈ timers st ∧ Timer.callback tm = DeleteKey c key) ∧
  (∀ tm c key, tm ∈ timers st → Timer.callback tm = DeleteKey c key →
               Timer.due tm ≤ now st + ttl c).

(** Every login in the record of calls is for a handle that was created,
    no handle is logged in twice, the suspended logins and the logins that
    succeeded are in the record, and the cached handles come from logins
    that succeeded, for the username they are under.  [succeeded] lists
    the logins that have succeeded so far. *)
Definition logged_in (succeeded : list (SessionHandle * Account.t))
    (st : State) : Prop :=
  (∀ h a, LoginCredentials h a ∈ calls st → (h < created st)%nat) ∧
  (∀ h a a', LoginCredentials h a ∈ calls st →
             LoginCredentials h a' ∈ calls st → a = a') ∧
  (∀ a h, AwaitLogin a h ∈ suspended st → LoginCredentials h a ∈ calls st) ∧
  (∀ h a, (h, a) ∈ succeeded → LoginCredentials h a ∈ calls st) ∧
  (∀ u h, sessions (caches st) !! u = Some h →
          ∃ a, Account.username a = u ∧ (h, a) ∈ succeeded).

(** A grade whose hash is that of its fields and whose coefficient, scale
    and best mark are truthy: neither 0 nor NaN. *)
Definition sound_grade (g : Grade.t) : Prop :=
  Grade.hash g = hashGrade g ∧
  truthy_number (Grade.coefficient g) = true ∧
  truthy_number (Grade.scale g) = true ∧
  truthy_number (Grade.best g) = true.

Definition grades_sound (cs : Caches) : Prop :=
  ∀ username cached, grades cs !! username = Some cached →
                     Forall sound_grade cached.

(** A homework whose hash is that of its fields. *)
Definition sound_homework (h : Homework.t) : Prop :=
  Homework.hash h = hashHomework h.

Definition homeworks_sound (cs : Caches) : Prop :=
  ∀ username cached, homeworks cs !! username = Some cached →
                     Forall sound_homework cached.

End Invariants.

(** * Properties *)

(** ** Failure of the library call *)

Section Failure.

Context `{Imports}.

(** C1: when the library call fails (the awaited result is [null]), none of
    [getGrades], [getTimetable], [getHomeworks] and [getAverages] changes a
    cache or the timer queue, whether one looks at the whole call or at its
    continuation after the [await]: nothing is inserted, no deletion is
    scheduled. *)
Theorem failed_fetch_caches_untouched (username : string)
    (session : SessionHandle) (e : Error) (st : State) :
  let untouched (st' : State) :=
    caches st' = caches st ∧ timers st' = timers st in
  untouched (getGrades username session (Rejected e) st).1 ∧
  untouched (getTimetable username session (Rejected e) st).1 ∧
  untouched (getHomeworks username session (Rejected e) st).1 ∧
  untouched (getAverages username session (Rejected e) st).1 ∧
  (getGrades_resume username None st).1 = st ∧
  (getTimetable_resume username None st).1 = st ∧
  (getHomeworks_resume username None st).1 = st ∧
  (getAverages_resume username None st).1 = st.
Proof.
  cbv zeta.
  unfold getGrades, getTimetable, getHomeworks, getAverages,
    getGrades_begin, getTimetable_begin, getHomeworks_begin,
    getAverages_begin.
  repeat split; try reflexivity;
    match goal with
    | |- context [?m !! username] => destruct (m !! username)
    end; reflexivity.
Qed.

(** C2: on a cache miss, a failing library call makes the operation return
    its empty result, as a value and not as an exception: the empty list
    for [getGrades], [getTimetable] and [getHomeworks], and the averages
    [{ value: 0, everyone: 0 }] for [getAverages]. *)
Theorem failed_fetch_returns_empty (username : string)
    (session : SessionHandle) (e : Error) (st : State) :
  (grades (caches st) !! username = None →
   (getGrades username session (Rejected e) st).2 = Returned []) ∧
  (timetable (caches st) !! username = None →
   (getTimetable username session (Rejected e) st).2 = Returned []) ∧
  (homeworks (caches st) !! username = None →
   (getHomeworks username session (Rejected e) st).2 = Returned []) ∧
  (averages (caches st) !! username = None →
   (getAverages username session (Rejected e) st).2 =
     Returned (Averages.Make (of_Z 0) (of_Z 0))).
Proof.
  unfold getGrades, getTimetable, getHomeworks, getAverages,
    getGrades_begin, getTimetable_begin, getHomeworks_begin,
    getAverages_begin.
  repeat split; intros ->; reflexivity.
Qed.

End Failure.

Lemma failed_fetch_returns_empty_witness :
  let st := initial 0 in
  let e := MkError "timeout" in
  (getGrades (H := sampleImports) "eleve" 0 (Rejected e) st).2 = Returned [] ∧
  (getTimetable (H := sampleImports) "eleve" 0 (Rejected e) st).2
    = Returned [] ∧
  (getHomeworks (H := sampleImports) "eleve" 0 (Rejected e) st).2
    = Returned [] ∧
  (getAverages (H := sampleImports) "eleve" 0 (Rejected e) st).2
    = Returned (Averages.Make (of_Z 0) (of_Z 0)).
Proof.
  destruct (failed_fetch_returns_empty (H := sampleImports)
              "eleve" 0 (MkError "timeout") (initial 0))
    as (Hg & Ht & Hh & Ha).
  cbv zeta. split_and!; [apply Hg | apply Ht | apply Hh | apply Ha];
    reflexivity.
Defined.

(** ** Cache hits *)

Section Hits.

Context `{Imports}.

Lemma getGrades_hit username session reply st v :
  grades (caches st) !! username = Some v →
  getGrades username session reply st = (st, Returned v).
Proof. unfold getGrades, getGrades_begin. by intros ->. Qed.

Lemma getTimetable_hit username session reply st v :
  timetable (caches st) !! username = Some v →
  getTimetable username session reply st = (st, Returned v).
Proof. unfold getTimetable, getTimetable_begin. by intros ->. Qed.

Lemma getHomeworks_hit username session reply st v :
  homeworks (caches st) !! username = Some v →
  getHomeworks username session reply st = (st, Returned v).
Proof. unfold getHomeworks, getHomeworks_begin. by intros ->. Qed.

Lemma getAverages_hit username session reply st v :
  averages (caches st) !! username = Some v →
  getAverages username session reply st = (st, Returned v).
Proof. unfold getAverages, getAverages_begin. by intros ->. Qed.

End Hits.

(** ** Reshaping of the library's objects *)

Section Reshaping.

Context `{Imports}.

Lemma pushMarks_app today subject grades marks :
  pushMarks today subject grades marks
  = grades ++ map (gradeOf today subject) marks.
Proof.
  unfold pushMarks. revert grades.
  induction marks as [|mark marks IH]; intros grades; simpl.
  - by rewrite app_nil_r.
  - rewrite IH. by rewrite <- app_assoc.
Qed.

Lemma pushSubjects_app today grades subjects :
  pushSubjects today grades subjects
  = grades ++
    flat_map (λ subject, map (gradeOf today subject)
                           (nullish (Subject.grades subject) []))
             subjects.
Proof.
  unfold pushSubjects. revert grades.
  induction subjects as [|subject subjects IH]; intros grades; simpl.
  - by rewrite app_nil_r.
  - rewrite IH, pushMarks_app. by rewrite <- app_assoc.
Qed.




Lemma getHomeworks_miss username session raw st :
  homeworks (caches st) !! username = None →
  (getHomeworks username session (Resolved raw) st).2
  = Returned (map (homeworkOf (now st)) raw).
Proof.
  intros Hmiss. unfold getHomeworks, getHomeworks_begin. by rewrite Hmiss.
Qed.

(** C9, amended: for a successful response fetched on a cache miss,
    [getHomeworks] returns one homework per assignment, at the same
    position.  When the assignment's raw date is a date at most
    [8.64e15 - 10800000] ms after the epoch, the due date is that date plus
    exactly 3 hours, 10800000 milliseconds; when the raw date is later than
    that, or is an Invalid Date, the due date is an Invalid Date. *)
Theorem getHomeworks_due_three_hours_later (username : string)
    (session : SessionHandle) (raw : list Assignment.t) (st : State) :
  homeworks (caches st) !! username = None →
  ∃ result,
    (getHomeworks username session (Resolved raw) st).2 = Returned result ∧
    length result = length raw ∧
    ∀ i v, raw !! i = Some v →
           ∃ h : Homework.t,
             result !! i = Some h ∧
             (∀ t, Assignment.date v = DateAt t → - maxTimeValue ≤ t →
                   (t ≤ maxTimeValue - 10800000 →
                    Homework.due h = DateAt (t + 10800000)) ∧
                   (maxTimeValue - 10800000 < t →
                    Homework.due h = InvalidDate)) ∧
             (Assignment.date v = InvalidDate →
              Homework.due h = InvalidDate).
Proof.
  intros Hmiss. eexists. split_and!; [by apply getHomeworks_miss|..].
  - by rewrite length_map.
  - intros i v Hv. exists (homeworkOf (now st) v). split_and!.
    + change (map ?f ?l) with (f <$> l). by rewrite list_lookup_fmap, Hv.
    + intros t Ht Hlow. simpl. rewrite Ht. simpl. unfold maxTimeValue in *.
      split; intros Hhigh; case_decide; try done; lia.
    + intros Hinvalid. simpl. by rewrite Hinvalid.
Qed.

End Reshaping.




Lemma getHomeworks_due_three_hours_later_witness :
  ∃ (result : list Homework.t) (h : Homework.t),
    (getHomeworks (H := sampleImports) "eleve" 0 (Resolved [sampleAssignment])
       (initial 0)).2 = Returned result ∧
    result !! 0%nat = Some h ∧ Homework.due h = DateAt 97200000.
Proof.
  destruct (getHomeworks_due_three_hours_later (H := sampleImports)
              "eleve" 0 [sampleAssignment] (initial 0))
    as (result & Hret & _ & Hdue); [reflexivity|].
  destruct (Hdue 0%nat sampleAssignment) as (h & Hh & Hd & _); [reflexivity|].
  exists result, h. split_and!; [done|done|].
  by apply (Hd 86400000).
Defined.

(** C9, as stated, fails on an assignment dated at the last time value of a
    [Date], 8.64e15 ms after the epoch: three hours later there is no date,
    and the due date of the homework is an Invalid Date. *)
Lemma getHomeworks_due_invalid_after_last_date :
  ∃ h : Homework.t,
    (getHomeworks (H := sampleImports) "eleve" 0 (Resolved [lastAssignment])
       (initial 0)).2 = Returned [h] ∧
    Assignment.date lastAssignment = DateAt 8640000000000000 ∧
    Homework.due h = InvalidDate ∧
    Homework.due h ≠ DateAt (8640000000000000 + 10800000).
Proof. eexists. split_and!; try reflexivity. intros [=]. Qed.

(** ** Whole calls and events *)

Section Atomic.

Context `{Imports}.

Lemma wake_suspend s st : wake (length (suspended st)) (suspend s st) = st.
Proof.
  destruct st as [cs t tms cls n susp]. unfold wake, suspend. simpl.
  f_equal. by rewrite delete_middle, app_nil_r.
Qed.

Lemma settle_suspend s r st :
  settle (length (suspended st)) r (suspend s st) = resume s r st.
Proof.
  unfold settle. rewrite wake_suspend. unfold suspend. simpl.
  by rewrite list_lookup_middle.
Qed.

(** A call of one of the five functions, taken as a whole, is its step up
    to the [await] followed at once by its continuation. *)
Lemma call_as_events :
  (∀ account login st,
     sessions (caches st) !! Account.username account = None →
     settle (length (suspended st)) (LoginReply login)
       (invoke (GetSession account) st)
     = Some (getSession account login st).1) ∧
  (∀ username session reply st,
     grades (caches st) !! username = None →
     settle (length (suspended st)) (GradebookReply reply)
       (invoke (GetGrades username session) st)
     = Some (getGrades username session reply st).1) ∧
  (∀ username session reply st,
     timetable (caches st) !! username = None →
     settle (length (suspended st)) (TimetableReply reply)
       (invoke (GetTimetable username session) st)
     = Some (getTimetable username session reply st).1) ∧
  (∀ username session reply st,
     homeworks (caches st) !! username = None →
     settle (length (suspended st)) (AssignmentsReply reply)
       (invoke (GetHomeworks username session) st)
     = Some (getHomeworks username session reply st).1) ∧
  (∀ username session reply st,
     averages (caches st) !! username = None →
     settle (length (suspended st)) (OverviewReply reply)
       (invoke (GetAverages username session) st)
     = Some (getAverages username session reply st).1).
Proof.
  split_and!; [intros ??? Hmiss|intros ???? Hmiss..]; simpl;
    unfold getSession, getSession_begin, getGrades, getGrades_begin,
      getTimetable, getTimetable_begin, getHomeworks, getHomeworks_begin,
      getAverages, getAverages_begin;
    rewrite Hmiss; simpl.
  - exact (settle_suspend (AwaitLogin account (created st)) (LoginReply login)
             (call _ (createSessionHandle st).1)).
  - exact (settle_suspend (AwaitGradebook username) (GradebookReply reply)
             (call _ st)).
  - exact (settle_suspend (AwaitTimetable username) (TimetableReply reply)
             (call _ st)).
  - exact (settle_suspend (AwaitAssignments username) (AssignmentsReply reply)
             (call _ st)).
  - exact (settle_suspend (AwaitOverview username) (OverviewReply reply)
             (call _ st)).
Qed.

End Atomic.

(** ** The event loop: what a step can change *)

Section Steps.

Context `{Imports}.

(** Timer callbacks and the entry under one key. *)

Lemma fire_lookup_ne cb c key cs :
  cb ≠ DeleteKey c key →
  lookup_entry c key (fire cb cs) = lookup_entry c key cs.
Proof.
  intros Hne. destruct cb as [|c' key']; [done|].
  destruct c, c'; simpl; try done;
    (rewrite lookup_delete_ne; [done|congruence]).
Qed.

Lemma fire_lookup_eq c key cs :
  lookup_entry c key (fire (DeleteKey c key) cs) = None.
Proof. destruct c; simpl; by rewrite lookup_delete_eq. Qed.

Lemma fire_lookup_None cb c key cs :
  lookup_entry c key cs = None → lookup_entry c key (fire cb cs) = None.
Proof.
  intros Hnone. destruct (decide (cb = DeleteKey c key)) as [->|Hne].
  - apply fire_lookup_eq.
  - by rewrite fire_lookup_ne.
Qed.

Lemma fire_all_lookup_kept c key (due : list Timer.t) cs :
  (∀ tm, tm ∈ due → Timer.callback tm ≠ DeleteKey c key) →
  lookup_entry c key (foldl (λ cs tm, fire (Timer.callback tm) cs) cs due)
  = lookup_entry c key cs.
Proof.
  revert cs. induction due as [|tm due IH]; intros cs Hdue; simpl; [done|].
  rewrite IH.
  - apply fire_lookup_ne, Hdue, list_elem_of_here.
  - intros tm' Hin. apply Hdue. by apply list_elem_of_further.
Qed.

Lemma fire_all_lookup_None c key (due : list Timer.t) cs :
  lookup_entry c key cs = None →
  lookup_entry c key (foldl (λ cs tm, fire (Timer.callback tm) cs) cs due)
  = None.
Proof.
  revert cs. induction due as [|tm due IH]; intros cs Hnone; simpl; [done|].
  by apply IH, fire_lookup_None.
Qed.

Lemma fire_all_lookup_gone c key (due : list Timer.t) cs tm :
  tm ∈ due → Timer.callback tm = DeleteKey c key →
  lookup_entry c key (foldl (λ cs tm, fire (Timer.callback tm) cs) cs due)
  = None.
Proof.
  revert cs. induction due as [|tm' due IH]; intros cs Hin Hcb; simpl.
  - by apply elem_of_nil in Hin.
  - apply elem_of_cons in Hin as [<-|Hin].
    + apply fire_all_lookup_None. rewrite Hcb. apply fire_lookup_eq.
    + by apply IH.
Qed.

(** A call up to its [await]: the caches, the clock and the timers stay,
    and a call is suspended only on a key that is not in its cache. *)
Lemma invoke_frame r st :
  caches (invoke r st) = caches st ∧
  now (invoke r st) = now st ∧
  timers (invoke r st) = timers st ∧
  (suspended (invoke r st) = suspended st ∨
   ∃ s, suspended (invoke r st) = suspended st ++ [s] ∧
        lookup_entry (target s).1 (target s).2 (caches st) = None).
Proof.
  destruct r as [account|username session|username session
                |username session|username session]; simpl.
  - unfold getSession_begin.
    destruct (sessions (caches st) !! Account.username account) eqn:Hc;
      simpl; split_and!; try done; [by left|].
    right. eexists. split; [done|]. simpl. by rewrite Hc.
  - unfold getGrades_begin.
    destruct (grades (caches st) !! username) eqn:Hc;
      simpl; split_and!; try done; [by left|].
    right. eexists. split; [done|]. simpl. by rewrite Hc.
  - unfold getTimetable_begin.
    destruct (timetable (caches st) !! username) eqn:Hc;
      simpl; split_and!; try done; [by left|].
    right. eexists. split; [done|]. simpl. by rewrite Hc.
  - unfold getHomeworks_begin.
    destruct (homeworks (caches st) !! username) eqn:Hc;
      simpl; split_and!; try done; [by left|].
    right. eexists. split; [done|]. simpl. by rewrite Hc.
  - unfold getAverages_begin.
    destruct (averages (caches st) !! username) eqn:Hc;
      simpl; split_and!; try done; [by left|].
    right. eexists. split; [done|]. simpl. by rewrite Hc.
Qed.

(** A continuation: it writes its own key only, and the timers it adds are
    the idle session timer or the deletion of its own key, due after the
    delay of its cache. *)
Lemma resume_frame s r st st' :
  resume s r st = Some st' →
  now st' = now st ∧
  suspended st' = suspended st ∧
  (∀ c key, (c, key) ≠ target s →
            lookup_entry c key (caches st') = lookup_entry c key (caches st)) ∧
  (∃ new, timers st' = timers st ++ new ∧
          ∀ tm, tm ∈ new → Timer.callback tm = SessionExpires ∨
                           Timer.callback tm = DeleteKey (target s).1 (target s).2).
Proof.
  destruct s as [account session|username|username|username|username],
           r as [[]|[]|[]|[]|[]];
    simpl; intros [= <-]; simpl; split_and!; try done;
    try (by exists []; rewrite app_nil_r; split; [|intros ? ?%elem_of_nil]);
    try (intros c key Hne; destruct c; simpl; try done;
         rewrite lookup_insert_ne; [done|congruence]).
  - eexists [_; _]. rewrite <- app_assoc. split; [done|].
    intros tm [->|[->|[]%elem_of_nil]%elem_of_cons]%elem_of_cons; simpl; auto.
  - eexists [_]. split; [done|].
    intros tm [->|[]%elem_of_nil]%elem_of_cons; simpl; auto.
  - eexists [_]. split; [done|].
    intros tm [->|[]%elem_of_nil]%elem_of_cons; simpl; auto.
  - eexists [_]. split; [done|].
    intros tm [->|[]%elem_of_nil]%elem_of_cons; simpl; auto.
  - eexists [_]. split; [done|].
    intros tm [->|[]%elem_of_nil]%elem_of_cons; simpl; auto.
Qed.

(** A continuation whose library call succeeded stores an entry under its
    key and schedules, last, the deletion of that key after the delay of
    its cache. *)
Lemma resume_resolved s r st st' :
  resume s r st = Some st' → resolved r = true →
  is_Some (lookup_entry (target s).1 (target s).2 (caches st')) ∧
  ∃ earlier,
    timers st'
    = earlier ++ [Timer.Make (now st + ttl (target s).1)
                    (DeleteKey (target s).1 (target s).2)] ∧
    (∀ tm, tm ∈ earlier → tm ∈ timers st ∨ Timer.callback tm = SessionExpires).
Proof.
  destruct s as [account session|username|username|username|username],
           r as [[]|[]|[]|[]|[]];
    simpl; intros [= <-] [=]; simpl;
    (split; [rewrite lookup_insert_eq; by eexists|]).
  - eexists. split; [done|].
    intros tm [?|Htm%list_elem_of_singleton]%elem_of_app; subst; auto.
  - eexists. split; [done|]. auto.
  - eexists. split; [done|]. auto.
  - eexists. split; [done|]. auto.
  - eexists. split; [done|]. auto.
Qed.

(** A continuation whose library call failed changes nothing. *)
Lemma resume_rejected s r st st' :
  resume s r st = Some st' → resolved r = false → st' = st.
Proof.
  destruct s, r as [[]|[]|[]|[]|[]]; simpl; intros [= <-] [=]; done.
Qed.

Lemma elapse_now d st : now (elapse d st) = now st + d.
Proof. done. Qed.

Lemma step_now e st st' : step e st = Some st' → now st ≤ now st'.
Proof.
  destruct e as [r|i r|d]; simpl.
  - intros [= <-]. destruct (invoke_frame r st) as (_ & -> & _). lia.
  - unfold settle. destruct (suspended st !! i) as [s|]; [|done].
    intros (-> & _)%resume_frame. simpl. lia.
  - case_decide; [|done]. intros [= <-]. rewrite elapse_now. lia.
Qed.

Lemma run_now evs st st' : run evs st = Some st' → now st ≤ now st'.
Proof.
  revert st. induction evs as [|e evs IH]; intros st; simpl.
  - intros [= <-]. lia.
  - destruct (step e st) as [st1|] eqn:Hstep; [|done].
    intros Hrun. apply step_now in Hstep. apply IH in Hrun. lia.
Qed.

(** A pending timer stays in the queue, with the time it is due at, as
    long as the clock has not reached that time: no step moves or cancels
    it. *)
Lemma step_timer_stays tm e st st' :
  tm ∈ timers st → step e st = Some st' → now st' < Timer.due tm →
  tm ∈ timers st'.
Proof.
  intros Hin. destruct e as [r|i r|d]; simpl.
  - intros [= <-] _. destruct (invoke_frame r st) as (_ & _ & -> & _). done.
  - unfold settle. destruct (suspended st !! i) as [s|]; [|done].
    intros (_ & _ & _ & new & -> & _)%resume_frame _. simpl.
    apply elem_of_app. by left.
  - case_decide; [|done]. intros [= <-]. rewrite elapse_now. intros Hdue.
    simpl. apply list_elem_of_filter. split; [lia|done].
Qed.

Lemma run_timer_stays tm evs st st' :
  tm ∈ timers st → run evs st = Some st' → now st' < Timer.due tm →
  tm ∈ timers st'.
Proof.
  revert st. induction evs as [|e evs IH]; intros st Hin; simpl.
  - by intros [= <-].
  - destruct (step e st) as [st1|] eqn:Hstep; [|done].
    intros Hrun Hdue. apply (IH st1); [|done..].
    eapply step_timer_stays; [done..|]. apply run_now in Hrun. lia.
Qed.

(** When the clock reaches the time a deletion is due at, the key is
    deleted. *)
Lemma elapse_deletes tm c key d st :
  tm ∈ timers st → Timer.callback tm = DeleteKey c key →
  Timer.due tm ≤ now st + d →
  lookup_entry c key (caches (elapse d st)) = None.
Proof.
  intros Hin Hcb Hdue. simpl. eapply fire_all_lookup_gone; [|done].
  apply list_elem_of_filter. done.
Qed.

End Steps.

(** ** How long an entry stays *)

Section Lifetime.

Context `{Imports}.

Lemma step_settled c key e t ev st st' :
  settled_until c key e t st → step ev st = Some st' → now st' < t →
  settled_until c key e t st'.
Proof.
  intros (Hentry & Htimers & Hsusp). destruct ev as [r|i r|d]; simpl.
  - intros [= <-] _.
    destruct (invoke_frame r st) as (Hc & _ & Ht & Hs).
    unfold settled_until. rewrite Hc, Ht. split_and!; [done..|].
    destruct Hs as [->|(s & -> & Hnone)]; [done|].
    intros s' [?|Hs'%list_elem_of_singleton]%elem_of_app;
      [by apply Hsusp|subst s'].
    intros Htarget. rewrite Htarget in Hnone. simpl in Hnone. congruence.
  - unfold settle. destruct (suspended st !! i) as [s|] eqn:Hi; [|done].
    intros (_ & Hs & Hc & new & Ht & Hnew)%resume_frame _.
    simpl in Hs, Hc, Ht.
    assert (target s ≠ (c, key)) as Hne
      by (by apply Hsusp, list_elem_of_lookup_2 with i).
    unfold settled_until. rewrite Hs, Ht, Hc by done. split_and!; [done|..].
    + intros tm [?|Hin]%elem_of_app; [by apply Htimers|].
      destruct (Hnew tm Hin) as [->| ->]; [done|].
      intros [= <- <-]. destruct Hne. by destruct (target s).
    + intros s' Hin%list_elem_of_delete_inv. by apply Hsusp.
  - case_decide; [|done]. intros [= <-]. rewrite elapse_now. intros Hnow.
    unfold settled_until. simpl. split_and!; [|..|done].
    + rewrite fire_all_lookup_kept; [done|].
      intros tm [Hdue Hin]%list_elem_of_filter Hcb.
      specialize (Htimers tm Hin Hcb). lia.
    + intros tm [_ Hin]%list_elem_of_filter. by apply Htimers.
Qed.

Lemma settled_kept c key e t st :
  settled_until c key e t st → kept_until c key e t st.
Proof.
  intros Hst evs. revert st Hst.
  induction evs as [|ev evs IH]; intros st Hst st'; simpl.
  - intros [= <-] _. apply Hst.
  - destruct (step ev st) as [st1|] eqn:Hstep; [|done].
    intros Hrun Hnow. apply (IH st1); [|done..].
    eapply step_settled; [done..|]. apply run_now in Hrun. lia.
Qed.

(** Every insertion: the continuation of a call whose library call
    succeeded stores an entry, puts the deletion of its key in the queue at
    the delay of its cache, and from there on
    - the deletion stays in the queue, due at the same time, whatever
      happens before that time;
    - the key is not in the cache when the clock has reached that time;
    - the entry itself stays until then if the key was quiet. *)
Lemma insertion_lifetime i s r st st1 :
  suspended st !! i = Some s → resolved r = true →
  settle i r st = Some st1 →
  let c := (target s).1 in
  let key := (target s).2 in
  let t := now st + ttl c in
  let deletion := Timer.Make t (DeleteKey c key) in
  ∃ e, lookup_entry c key (caches st1) = Some e ∧
       deletion ∈ timers st1 ∧
       (∀ evs st2, run evs st1 = Some st2 → now st2 < t →
                   deletion ∈ timers st2) ∧
       (∀ evs st2 d, run evs st1 = Some st2 → now st2 < t ≤ now st2 + d →
                     lookup_entry c key (caches (elapse d st2)) = None) ∧
       (quiet c key (wake i st) → kept_until c key e t st1).
Proof.
  intros Hi Hr Hresume c key t deletion.
  unfold settle in Hresume. rewrite Hi in Hresume.
  destruct (resume_resolved _ _ _ _ Hresume Hr)
    as ([e He] & earlier & Htimers & Hearlier).
  destruct (resume_frame _ _ _ _ Hresume) as (_ & Hs & _).
  simpl in Htimers, Hearlier, Hs. fold c key t deletion in Htimers.
  assert (deletion ∈ timers st1) as Hin
    by (rewrite Htimers; apply elem_of_app; right; apply list_elem_of_here).
  exists e. split_and!; [done|done|..].
  - intros evs st2 Hrun Hnow. by eapply run_timer_stays.
  - intros evs st2 d Hrun [Hnow Hdue].
    eapply elapse_deletes; [by eapply run_timer_stays|done|done].
  - intros [Hquiet_timers Hquiet_susp]. apply settled_kept.
    split_and!; [done|..].
    + rewrite Htimers.
      intros tm [Htm|Htm%list_elem_of_singleton]%elem_of_app Hcb;
        [|subst tm; simpl; lia].
      destruct (Hearlier tm Htm) as [Hold|Hexp]; [|congruence].
      by destruct (Hquiet_timers tm Hold).
    + rewrite Hs. apply Hquiet_susp.
Qed.

End Lifetime.

(** ** Runs in which the calls for one key do not overlap *)

Section Orderly.

Context `{Imports}.

Lemma invoke_hit r st :
  is_Some (lookup_entry (request_target r).1 (request_target r).2 (caches st)) →
  invoke r st = st.
Proof.
  destruct r; simpl; intros [e He]%fmap_is_Some;
    unfold getSession_begin, getGrades_begin, getTimetable_begin,
      getHomeworks_begin, getAverages_begin; by rewrite He.
Qed.

Lemma invoke_miss r st :
  lookup_entry (request_target r).1 (request_target r).2 (caches st) = None →
  ∃ s, target s = request_target r ∧
       caches (invoke r st) = caches st ∧
       now (invoke r st) = now st ∧
       timers (invoke r st) = timers st ∧
       suspended (invoke r st) = suspended st ++ [s].
Proof.
  destruct r; simpl; intros Hmiss%fmap_None;
    unfold getSession_begin, getGrades_begin, getTimetable_begin,
      getHomeworks_begin, getAverages_begin; rewrite Hmiss; simpl;
    (eexists; split_and!; [|done|done|done|reflexivity]; reflexivity).
Qed.

(** The other suspended calls write other keys than the one that is
    woken. *)
Lemma woken_alone i s s' (waiting : list Suspended) :
  NoDup (target <$> waiting) → waiting !! i = Some s →
  s' ∈ delete i waiting → target s' ≠ target s.
Proof.
  intros Hnodup Hi Hin Heq.
  rewrite <- (take_drop_middle waiting i s Hi) in Hnodup.
  rewrite delete_take_drop in Hin.
  rewrite fmap_app, fmap_cons in Hnodup.
  apply NoDup_app in Hnodup as (_ & Hleft & Hright).
  apply NoDup_cons in Hright as [Hright _].
  apply elem_of_app in Hin as [Hin|Hin].
  - apply (Hleft (target s')); [by apply list_elem_of_fmap_2|].
    rewrite Heq. apply list_elem_of_here.
  - apply Hright. rewrite <- Heq. by apply list_elem_of_fmap_2.
Qed.

Lemma orderly_initial t0 : orderly (initial t0).
Proof.
  split_and!; simpl; [apply NoDup_nil_2|..]; intros tm; intros;
    match goal with Hin : _ ∈ [] |- _ => by apply elem_of_nil in Hin end.
Qed.

Lemma orderly_invoke r st :
  orderly st → admitted (Invoke r) st → orderly (invoke r st).
Proof.
  intros (Hnodup & Habsent & Hpresent & Hdue) Hadmitted. simpl in Hadmitted.
  destruct (lookup_entry (request_target r).1 (request_target r).2 (caches st))
    as [e|] eqn:Hentry.
  { rewrite invoke_hit by (by rewrite Hentry). done. }
  destruct (invoke_miss r st Hentry) as (s & Htarget & Hc & _ & Ht & Hs).
  unfold orderly. rewrite Hc, Ht, Hs. split_and!; [|  |done..].
  - rewrite fmap_app. apply NoDup_app. split_and!; [done| |apply NoDup_singleton].
    intros k [s' [-> Hs']]%list_elem_of_fmap Hk%list_elem_of_singleton.
    apply (Hadmitted s' Hs'). by rewrite Hk.
  - intros s' [Hs'|Hs'%list_elem_of_singleton]%elem_of_app; [by apply Habsent|].
    subst s'. by rewrite Htarget.
Qed.

Lemma orderly_settle i r st st' :
  orderly st → settle i r st = Some st' → orderly st'.
Proof.
  intros (Hnodup & Habsent & Hpresent & Hdue). unfold settle.
  destruct (suspended st !! i) as [s|] eqn:Hi; [|done].
  intros Hresume.
  assert (s ∈ suspended st) as Hs by (by eapply list_elem_of_lookup_2).
  assert (∀ s', s' ∈ delete i (suspended st) → target s' ≠ target s) as Hothers
    by (intros s'; by apply woken_alone).
  assert (NoDup (target <$> delete i (suspended st))) as Hnodup'.
  { apply (sublist_NoDup _ (target <$> suspended st)); [done|].
    apply fmap_sublist, sublist_delete. }
  destruct (resume_frame _ _ _ _ Hresume) as (_ & Hs1 & Hother & _).
  simpl in Hs1, Hother.
  destruct (resolved r) eqn:Hr.
  - destruct (resume_resolved _ _ _ _ Hresume Hr)
      as (Hstored & earlier & Htimers & Hearlier).
    simpl in Htimers, Hearlier.
    assert (∀ tm c key, tm ∈ earlier → Timer.callback tm = DeleteKey c key →
                        tm ∈ timers st ∧ (c, key) ≠ target s) as Hold.
    { intros tm c key Htm Hcb.
      destruct (Hearlier tm Htm) as [Hin|Hexp]; [|congruence].
      split; [done|]. intros Heq.
      destruct (Hpresent tm c key Hin Hcb) as [e He].
      specialize (Habsent s Hs). rewrite <- Heq in Habsent. simpl in Habsent.
      congruence. }
    unfold orderly. rewrite Hs1. split_and!; [done|..].
    + intros s' Hs'. rewrite Hother.
      * by apply Habsent, list_elem_of_delete_inv with i.
      * specialize (Hothers s' Hs'). by destruct (target s').
    + rewrite Htimers.
      intros tm c key [Htm|Htm%list_elem_of_singleton]%elem_of_app Hcb.
      * destruct (Hold tm c key Htm Hcb) as [Hin Hne].
        rewrite Hother by done. by eapply Hpresent.
      * subst tm. simpl in Hcb. by injection Hcb as <- <-.
    + rewrite Htimers.
      intros tm tm' c key [Htm|Htm%list_elem_of_singleton]%elem_of_app
        [Htm'|Htm'%list_elem_of_singleton]%elem_of_app Hcb Hcb'.
      * destruct (Hold tm c key Htm Hcb), (Hold tm' c key Htm' Hcb').
        by eapply Hdue.
      * subst tm'. simpl in Hcb'. injection Hcb' as <- <-.
        destruct (Hold tm _ _ Htm Hcb) as [_ Hne]. by destruct (target s).
      * subst tm. simpl in Hcb. injection Hcb as <- <-.
        destruct (Hold tm' _ _ Htm' Hcb') as [_ Hne]. by destruct (target s).
      * by subst.
  - apply resume_rejected in Hresume; [|done]. subst st'.
    split_and!; simpl; [done| |done..].
    intros s' Hs'. by apply Habsent, list_elem_of_delete_inv with i.
Qed.

Lemma orderly_elapse d st : orderly st → orderly (elapse d st).
Proof.
  intros (Hnodup & Habsent & Hpresent & Hdue). split_and!; simpl; [done|..].
  - intros s Hs. by apply fire_all_lookup_None, Habsent.
  - intros tm c key [Hlate Hin]%list_elem_of_filter Hcb.
    rewrite fire_all_lookup_kept; [by eapply Hpresent|].
    intros tm' [Hearly Hin']%list_elem_of_filter Hcb'.
    specialize (Hdue tm tm' c key Hin Hin' Hcb Hcb'). simpl in *. lia.
  - intros tm tm' c key [_ Hin]%list_elem_of_filter
      [_ Hin']%list_elem_of_filter. by apply Hdue.
Qed.

Lemma orderly_run evs st st' :
  orderly st → apart evs st → run evs st = Some st' → orderly st'.
Proof.
  revert st. induction evs as [|e evs IH]; intros st Hst; simpl.
  - by intros _ [= <-].
  - intros [Hadmitted Hapart].
    destruct (step e st) as [st1|] eqn:Hstep; [|done].
    apply IH; [|done]. destruct e as [r|i r|d]; simpl in Hstep.
    + injection Hstep as <-. by apply orderly_invoke.
    + by eapply orderly_settle.
    + case_decide; [|done]. injection Hstep as <-. by apply orderly_elapse.
Qed.

(** When the reply to a call arrives in such a run, the key of the call is
    quiet: the entry that is then inserted stays until its own timer
    fires. *)
Lemma orderly_quiet t0 evs st i s :
  apart evs (initial t0) → run evs (initial t0) = Some st →
  suspended st !! i = Some s →
  quiet (target s).1 (target s).2 (wake i st).
Proof.
  intros Hapart Hrun Hi.
  destruct (orderly_run evs _ _ (orderly_initial t0) Hapart Hrun)
    as (Hnodup & Habsent & Hpresent & _).
  assert (s ∈ suspended st) as Hs by (by eapply list_elem_of_lookup_2).
  split; simpl.
  - intros tm Hin Hcb. destruct (Hpresent tm _ _ Hin Hcb) as [e He].
    specialize (Habsent s Hs). congruence.
  - intros s' Hs' Heq. apply (woken_alone i s s' (suspended st)); [done..|].
    rewrite Heq. by destruct (target s).
Qed.

End Orderly.

(** ** Expiry of the entries *)

Section Expiry.

Context `{Imports}.

Lemma timerDelay_cases after :
  (1 ≤ after ≤ 2147483647 → timerDelay after = after) ∧
  (¬ 1 ≤ after ≤ 2147483647 → timerDelay after = 1).
Proof. unfold timerDelay, TIMEOUT_MAX. split; intros; by case_decide. Qed.

Lemma resume_timers s r st st' :
  (target s).1 ≠ CSessions → resume s r st = Some st' →
  resolved r = true →
  timers st'
  = timers st ++ [Timer.Make (now st + timerDelay cacheTtl)
                    (DeleteKey (target s).1 (target s).2)].
Proof.
  destruct s, r as [[]|[]|[]|[]|[]]; simpl; intros Hc [= <-] [=]; done.
Qed.

(** C3, amended: every insertion into the grades, timetable, homeworks or
    averages cache (made by the continuation of a call whose library call
    succeeded) schedules the deletion of the username's key with the same
    fixed delay [cacheTtl = config.refreshEvery - 30000] ms, and nothing
    else.  The timer is due that delay after the insertion when the delay
    is between 1 and [2 ** 31 - 1] ms, and 1 ms after it otherwise.  No
    later event, accesses included, moves or cancels that timer, and once
    the clock has reached its time the key is not in the cache.  The
    inserted entry is in the cache at every moment before that time
    provided that, when it was inserted, no deletion of the key was pending
    and no other call for the key was suspended; this is so in every run in
    which the calls for one key do not overlap, however long the library
    takes to reply. *)
Theorem cache_entry_deleted_after_cacheTtl (c : CacheName) (key : string)
    (i : nat) (s : Suspended) (r : Reply) (st st1 : State) :
  c ≠ CSessions →
  suspended st !! i = Some s → target s = (c, key) → resolved r = true →
  settle i r st = Some st1 →
  let delay := timerDelay cacheTtl in
  let t := now st + delay in
  let deletion := Timer.Make t (DeleteKey c key) in
  cacheTtl = Config.refreshEvery config - 30000 ∧
  (1 ≤ cacheTtl ≤ 2147483647 → delay = cacheTtl) ∧
  (¬ 1 ≤ cacheTtl ≤ 2147483647 → delay = 1) ∧
  ∃ e, lookup_entry c key (caches st1) = Some e ∧
       timers st1 = timers st ++ [deletion] ∧
       (∀ evs st2, run evs st1 = Some st2 → now st2 < t →
                   deletion ∈ timers st2) ∧
       (∀ evs st2 d, run evs st1 = Some st2 → now st2 < t ≤ now st2 + d →
                     lookup_entry c key (caches (elapse d st2)) = None) ∧
       (quiet c key (wake i st) → kept_until c key e t st1) ∧
       (∀ t0 evs, apart evs (initial t0) → run evs (initial t0) = Some st →
                  kept_until c key e t st1).
Proof.
  intros Hc Hi Htarget Hr Hsettle delay t deletion.
  split_and!; [done|apply timerDelay_cases..|].
  destruct (insertion_lifetime i s r st st1 Hi Hr Hsettle)
    as (e & He & _ & Hstays & Hgone & Hkept).
  rewrite Htarget in He, Hstays, Hgone, Hkept. simpl in *.
  replace (ttl c) with delay in * by (by destruct c).
  exists e. split_and!; [done| |done..|].
  - unfold settle in Hsettle. rewrite Hi in Hsettle.
    rewrite (resume_timers _ _ _ _ ltac:(by rewrite Htarget) Hsettle Hr).
    by rewrite Htarget.
  - intros t0 evs Hapart Hrun. apply Hkept.
    pose proof (orderly_quiet t0 evs st i s Hapart Hrun Hi) as Hquiet.
    by rewrite Htarget in Hquiet.
Qed.

Lemma getSession_hit account login st cached :
  sessions (caches st) !! Account.username account = Some cached →
  getSession account login st = (st, Returned cached).
Proof. unfold getSession, getSession_begin. by intros ->. Qed.

(** C4, amended: while a handle for the account's username is in the
    session cache, [getSession] returns it and changes nothing, so that no
    session is created and no login made; the library is called only when
    no handle is cached.  Then a handle is created, the login is requested
    and the call waits for it.  When the login succeeds, however long it
    took, the new handle is returned and cached under the username, with
    the deletion of the key scheduled with the delay
    [config.accountTimeout - 120000] ms: the timer is due that delay after
    the login succeeded when the delay is between 1 and [2 ** 31 - 1] ms,
    and 1 ms after it otherwise.
    That timer is never moved or cancelled, and the key is not in the cache
    once its time has come.  The new handle is in the cache at every moment
    before that time provided that, when the login succeeded, no deletion of
    the key was pending and no other [getSession] call for the username was
    suspended; this is so in every run in which the calls for one key do
    not overlap. *)
Theorem getSession_reuses_cached_handle (account : Account.t) (st : State) :
  let username := Account.username account in
  let session := created st in
  let st0 := invoke (GetSession account) st in
  (∀ cached login,
     sessions (caches st) !! username = Some cached →
     getSession account login st = (st, Returned cached) ∧ st0 = st) ∧
  (calls st0 ≠ calls st → sessions (caches st) !! username = None) ∧
  (sessions (caches st) !! username = None →
   calls st0
   = calls st ++ [CreateSessionHandle; LoginCredentials session account] ∧
   suspended st0 = suspended st ++ [AwaitLogin account session] ∧
   caches st0 = caches st ∧ timers st0 = timers st ∧
   ∀ i st',
     suspended st' !! i = Some (AwaitLogin account session) →
     let delay := timerDelay (Config.accountTimeout config - 120000) in
     let t := now st' + delay in
     let deletion := Timer.Make t (DeleteKey CSessions username) in
     let resumed :=
       getSession_resume account session (Resolved ()) (wake i st') in
     (1 ≤ Config.accountTimeout config - 120000 ≤ 2147483647 →
      delay = Config.accountTimeout config - 120000) ∧
     (¬ 1 ≤ Config.accountTimeout config - 120000 ≤ 2147483647 →
      delay = 1) ∧
     settle i (LoginReply (Resolved ())) st' = Some resumed.1 ∧
     resumed.2 = Returned session ∧
     sessions (caches resumed.1) !! username = Some session ∧
     calls resumed.1 = calls st' ∧
     deletion ∈ timers resumed.1 ∧
     (∀ evs st2, run evs resumed.1 = Some st2 → now st2 < t →
                 deletion ∈ timers st2) ∧
     (∀ evs st2 d, run evs resumed.1 = Some st2 → now st2 < t ≤ now st2 + d →
                   sessions (caches (elapse d st2)) !! username = None) ∧
     (quiet CSessions username (wake i st') →
      kept_until CSessions username (ESession session) t resumed.1) ∧
     (∀ t0 evs, apart evs (initial t0) → run evs (initial t0) = Some st' →
                kept_until CSessions username (ESession session) t resumed.1)).
Proof.
  intros username session st0. split_and!.
  - intros cached login Hcached. split; [by apply getSession_hit|].
    subst st0. apply invoke_hit. simpl. fold username. by rewrite Hcached.
  - intros Hcalls.
    destruct (sessions (caches st) !! username) as [cached|] eqn:Hc; [|done].
    destruct Hcalls. subst st0. rewrite invoke_hit; [done|].
    simpl. fold username. by rewrite Hc.
  - intros Hmiss.
    assert (st0 = suspend (AwaitLogin account session)
                    (call (LoginCredentials session account)
                       (createSessionHandle st).1)) as ->.
    { subst st0. simpl. unfold getSession_begin. fold username.
      by rewrite Hmiss. }
    split_and!; [simpl; by rewrite <- app_assoc|done..|].
    intros i st' Hi delay t deletion resumed.
    assert (settle i (LoginReply (Resolved ())) st' = Some resumed.1)
      as Hsettle by (unfold settle; by rewrite Hi).
    destruct (insertion_lifetime i _ (LoginReply (Resolved ())) st' resumed.1
                Hi eq_refl Hsettle)
      as (e & He & Hin & Hstays & Hgone & Hkept).
    simpl in He, Hin, Hstays, Hgone, Hkept. fold username in He.
    rewrite lookup_insert_eq in He. injection He as <-.
    change (ttl CSessions) with delay in Hin, Hstays, Hgone, Hkept.
    fold username t deletion in Hin, Hstays, Hgone, Hkept.
    split_and!; [apply timerDelay_cases|apply timerDelay_cases|done|done
                |apply lookup_insert_eq|done|done|done| |done|].
    + intros evs st2 d Hrun Hd.
      specialize (Hgone evs st2 d Hrun Hd). by apply fmap_None in Hgone.
    + intros t0 evs Hapart Hrun. apply Hkept.
      exact (orderly_quiet t0 evs st' i _ Hapart Hrun Hi).
Qed.

End Expiry.

(** C3, as stated, fails when two calls overlap.  Both calls of [getGrades]
    miss the cache; the first continuation inserts at time 0 and schedules
    the deletion for 30000, the second inserts its own entry at time 10.
    That entry is read by a later call, and it is deleted by the timer of the
    first call at 30000, that is 29990 ms after its insertion although
    [cacheTtl] is 30000.  It fails as well when [cacheTtl] is more than a
    timer can wait: with [config.refreshEvery = 2147513648] the delay is
    [2 ** 31] ms, and the entry is deleted 1 ms after its insertion. *)
Lemma overlapping_getGrades_entry_deleted_early :
  let reply := GradebookReply (Resolved sampleGradeBook) in
  (∃ st st1 st2 e,
     run (H := sampleImports) overlappingGrades (initial 0) = Some st ∧
     suspended st !! 0%nat = Some (AwaitGradebook "eleve") ∧
     settle (H := sampleImports) 0 reply st = Some st1 ∧
     now st = 10 ∧ cacheTtl (H := sampleImports) = 30000 ∧
     lookup_entry CGrades "eleve" (caches st1) = Some e ∧
     run (H := sampleImports) [Invoke (GetGrades "eleve" 0); Elapse 29990] st1
     = Some st2 ∧
     now st2 = 30000 ∧
     lookup_entry CGrades "eleve" (caches st2) = None ∧
     ¬ kept_until (H := sampleImports) CGrades "eleve" e
         (now st + cacheTtl (H := sampleImports)) st1) ∧
  (∃ st1 st2,
     run (H := longImports) [Invoke (GetGrades "eleve" 0); Settle 0 reply]
       (initial 0) = Some st1 ∧
     cacheTtl (H := longImports) = 2147483648 ∧
     is_Some (lookup_entry CGrades "eleve" (caches st1)) ∧
     run (H := longImports) [Elapse 1] st1 = Some st2 ∧
     now st2 = 1 ∧
     lookup_entry CGrades "eleve" (caches st2) = None).
Proof.
  cbv zeta. split.
  - eexists _, _, _, _.
    split_and!; [vm_compute; reflexivity..|].
    intros Hkept.
    specialize (Hkept [Invoke (GetGrades "eleve" 0); Elapse 29990] _ eq_refl).
    vm_compute in Hkept. by specialize (Hkept eq_refl).
  - eexists _, _.
    split_and!;
      [vm_compute; reflexivity|vm_compute; reflexivity|
      |vm_compute; reflexivity..].
    vm_compute. by eexists.
Qed.

Lemma cache_entry_deleted_after_cacheTtl_witness :
  let evs :=
    [Invoke (GetGrades "eleve" 0); Elapse 100;
     Invoke (GetTimetable "eleve" 0); Elapse 150] in
  ∃ st st1 e,
    run (H := sampleImports) evs (initial 0) = Some st ∧
    settle (H := sampleImports) 0 (GradebookReply (Resolved sampleGradeBook)) st
    = Some st1 ∧
    lookup_entry CGrades "eleve" (caches st1) = Some e ∧
    timers st1 = [Timer.Make 30250 (DeleteKey CGrades "eleve")] ∧
    kept_until (H := sampleImports) CGrades "eleve" e 30250 st1.
Proof.
  cbv zeta.
  set (st := elapse 150 (invoke (GetTimetable "eleve" 0)
                           (elapse 100 (invoke (GetGrades "eleve" 0)
                                          (initial 0))))).
  assert (run (H := sampleImports)
            [Invoke (GetGrades "eleve" 0); Elapse 100;
             Invoke (GetTimetable "eleve" 0); Elapse 150] (initial 0)
          = Some st) as Hrun by reflexivity.
  destruct (cache_entry_deleted_after_cacheTtl (H := sampleImports)
              CGrades "eleve" 0 (AwaitGradebook "eleve")
              (GradebookReply (Resolved sampleGradeBook))
              st _ ltac:(done) eq_refl eq_refl eq_refl eq_refl)
    as (_ & _ & _ & e & He & Htimers & _ & _ & _ & Hkept).
  exists st. eexists. exists e.
  split_and!; [exact Hrun|reflexivity|exact He|exact Htimers|].
  refine (Hkept 0 _ _ Hrun).
  simpl. split_and!; try done.
  - intros s Hs. by apply elem_of_nil in Hs.
  - intros s Hs%list_elem_of_singleton. by subst s.
Defined.

(** C4, as stated, fails when two calls overlap.  Both calls of
    [getSession] find no cached handle and log in.  The handle of the first
    one is cached at time 0, with its deletion scheduled for 3480000; at time
    10 the second continuation replaces it.  It fails as well when the delay
    is more than a timer can wait: with [config.accountTimeout = 2147603648]
    the delay is [2 ** 31] ms, and the handle is deleted 1 ms after the
    login. *)
Lemma overlapping_getSession_handle_replaced :
  (∃ st0 st st1,
     run (H := sampleImports)
       [Invoke (GetSession sampleAccount); Invoke (GetSession sampleAccount)]
       (initial 0) = Some st0 ∧
     settle (H := sampleImports) 0 (LoginReply (Resolved ())) st0 = Some st ∧
     sessions (caches st) !! "eleve" = Some 0%nat ∧
     Timer.Make 3480000 (DeleteKey CSessions "eleve") ∈ timers st ∧
     run (H := sampleImports)
       [Elapse 10; Settle 0 (LoginReply (Resolved ()))] st = Some st1 ∧
     now st1 = 10 ∧
     sessions (caches st1) !! "eleve" = Some 1%nat ∧
     ¬ kept_until (H := sampleImports) CSessions "eleve" (ESession 0)
         3480000 st) ∧
  (∃ st1 st2,
     run (H := longImports)
       [Invoke (GetSession sampleAccount); Settle 0 (LoginReply (Resolved ()))]
       (initial 0) = Some st1 ∧
     Config.accountTimeout (config (Imports := longImports)) - 120000
     = 2147483648 ∧
     sessions (caches st1) !! "eleve" = Some 0%nat ∧
     run (H := longImports) [Elapse 1] st1 = Some st2 ∧
     now st2 = 1 ∧
     sessions (caches st2) !! "eleve" = None).
Proof.
  split.
  - eexists _, _, _.
    split_and!;
      [vm_compute; reflexivity|vm_compute; reflexivity|vm_compute; reflexivity
      | |vm_compute; reflexivity|vm_compute; reflexivity|vm_compute; reflexivity
      |].
    + vm_compute. apply list_elem_of_further, list_elem_of_here.
    + intros Hkept.
      specialize (Hkept [Elapse 10; Settle 0 (LoginReply (Resolved ()))]
                    _ eq_refl).
      vm_compute in Hkept. by specialize (Hkept eq_refl).
  - eexists _, _. split_and!; vm_compute; reflexivity.
Qed.

Lemma getSession_reuses_cached_handle_witness :
  let st' := elapse 500 (invoke (GetSession sampleAccount) (initial 0)) in
  ∃ st1,
    settle (H := sampleImports) 0 (LoginReply (Resolved ())) st' = Some st1 ∧
    sessions (caches st1) !! "eleve" = Some 0%nat ∧
    getSession (H := sampleImports) sampleAccount (Rejected (MkError "down"))
      st1 = (st1, Returned 0%nat) ∧
    kept_until (H := sampleImports) CSessions "eleve" (ESession 0) 3480500 st1.
Proof.
  cbv zeta.
  destruct (getSession_reuses_cached_handle (H := sampleImports)
              sampleAccount (initial 0))
    as (_ & _ & Hmiss).
  destruct (Hmiss eq_refl) as (_ & _ & _ & _ & Hlogin).
  destruct (Hlogin 0%nat
              (elapse 500 (invoke (GetSession sampleAccount) (initial 0)))
              eq_refl)
    as (_ & _ & Hsettle & _ & Hcached & _ & _ & _ & _ & Hkept & _).
  eexists. split_and!; [exact Hsettle|exact Hcached| |].
  - apply (getSession_reuses_cached_handle (H := sampleImports)
             sampleAccount). exact Hcached.
  - apply Hkept. split.
    + intros tm Htm. by apply elem_of_nil in Htm.
    + intros s Hs. by apply elem_of_nil in Hs.
Defined.

(** ** Calls within the lifetime of an entry *)

Section Window.

Context `{Imports}.

(** C5, amended: when the library call of [getGrades], [getTimetable],
    [getHomeworks] or [getAverages] succeeds, the value the call returns is
    stored under the username, whatever else is under way.  Provided that
    no deletion of the key was pending and no other call for the key was
    suspended when the reply arrived (so in every run in which the calls
    for one key do not overlap), every call of the same operation for that
    username made before the deletion of the entry is due to run, after
    whatever else has happened in between, returns exactly that value and
    leaves the whole state as it is, the record of library calls included:
    it makes no library call and is not suspended. *)
Theorem second_call_served_from_cache (username : string)
    (session' : SessionHandle) (i : nat) (st : State) :
  let within (c : CacheName) (first : State) (served : State → Prop) :=
    (quiet c username (wake i st) ∨
     ∃ t0 evs0, apart evs0 (initial t0) ∧ run evs0 (initial t0) = Some st) →
    ∀ evs st2, run evs first = Some st2 → now st2 < now st + ttl c →
               served st2 in
  (∀ raw reply',
     suspended st !! i = Some (AwaitGradebook username) →
     let first := getGrades_resume username (Some raw) (wake i st) in
     settle i (GradebookReply (Resolved raw)) st = Some first.1 ∧
     grades (caches first.1) !! username = Some first.2 ∧
     within CGrades first.1
       (λ st2, getGrades username session' reply' st2
               = (st2, Returned first.2) ∧
               invoke (GetGrades username session') st2 = st2)) ∧
  (∀ raw reply',
     suspended st !! i = Some (AwaitTimetable username) →
     let first := getTimetable_resume username (Some raw) (wake i st) in
     settle i (TimetableReply (Resolved raw)) st = Some first.1 ∧
     timetable (caches first.1) !! username = Some first.2 ∧
     within CTimetable first.1
       (λ st2, getTimetable username session' reply' st2
               = (st2, Returned first.2) ∧
               invoke (GetTimetable username session') st2 = st2)) ∧
  (∀ raw reply',
     suspended st !! i = Some (AwaitAssignments username) →
     let first := getHomeworks_resume username (Some raw) (wake i st) in
     settle i (AssignmentsReply (Resolved raw)) st = Some first.1 ∧
     homeworks (caches first.1) !! username = Some first.2 ∧
     within CHomeworks first.1
       (λ st2, getHomeworks username session' reply' st2
               = (st2, Returned first.2) ∧
               invoke (GetHomeworks username session') st2 = st2)) ∧
  (∀ raw reply',
     suspended st !! i = Some (AwaitOverview username) →
     let first := getAverages_resume username (Some raw) (wake i st) in
     settle i (OverviewReply (Resolved raw)) st = Some first.1 ∧
     averages (caches first.1) !! username = Some first.2 ∧
     within CAverages first.1
       (λ st2, getAverages username session' reply' st2
               = (st2, Returned first.2) ∧
               invoke (GetAverages username session') st2 = st2)).
Proof.
  cbv zeta.
  assert (∀ s r st1 v,
            suspended st !! i = Some s → resolved r = true →
            settle i r st = Some st1 →
            lookup_entry (target s).1 (target s).2 (caches st1) = Some v →
            (quiet (target s).1 (target s).2 (wake i st) ∨
             ∃ t0 evs0, apart evs0 (initial t0) ∧
                        run evs0 (initial t0) = Some st) →
            ∀ evs st2, run evs st1 = Some st2 →
                       now st2 < now st + ttl (target s).1 →
                       lookup_entry (target s).1 (target s).2 (caches st2)
                       = Some v) as Hserved.
  { intros s r st1 v Hi Hr Hsettle Hv Hquiet evs st2 Hrun Hnow.
    destruct (insertion_lifetime i s r st st1 Hi Hr Hsettle)
      as (e & He & _ & _ & _ & Hkept).
    simpl in He, Hkept. rewrite Hv in He. injection He as <-.
    eapply Hkept; [|done..].
    destruct Hquiet as [Hquiet|(t0 & evs0 & Hapart & Hrun0)]; [done|].
    by eapply orderly_quiet. }
  split_and!; intros raw reply' Hi;
    (split; [unfold settle; by rewrite Hi|]);
    (split; [simpl; by rewrite lookup_insert_eq|]);
    intros Hquiet evs st2 Hrun Hnow.
  - pose proof (Hserved (AwaitGradebook username)
                  (GradebookReply (Resolved raw)) _
                  (EGrades (getGrades_resume username (Some raw)
                              (wake i st)).2)
                  Hi eq_refl ltac:(unfold settle; by rewrite Hi)
                  ltac:(simpl; by rewrite lookup_insert_eq)
                  Hquiet evs st2 Hrun Hnow) as Hentry.
    cbn [target fst snd lookup_entry] in Hentry.
    apply fmap_Some in Hentry as (v & Hcached & [= <-]).
    split; [by apply getGrades_hit|].
    apply invoke_hit. simpl. by rewrite Hcached.
  - pose proof (Hserved (AwaitTimetable username)
                  (TimetableReply (Resolved raw)) _
                  (ETimetable (getTimetable_resume username (Some raw)
                                 (wake i st)).2)
                  Hi eq_refl ltac:(unfold settle; by rewrite Hi)
                  ltac:(simpl; by rewrite lookup_insert_eq)
                  Hquiet evs st2 Hrun Hnow) as Hentry.
    cbn [target fst snd lookup_entry] in Hentry.
    apply fmap_Some in Hentry as (v & Hcached & [= <-]).
    split; [by apply getTimetable_hit|].
    apply invoke_hit. simpl. by rewrite Hcached.
  - pose proof (Hserved (AwaitAssignments username)
                  (AssignmentsReply (Resolved raw)) _
                  (EHomeworks (getHomeworks_resume username (Some raw)
                                 (wake i st)).2)
                  Hi eq_refl ltac:(unfold settle; by rewrite Hi)
                  ltac:(simpl; by rewrite lookup_insert_eq)
                  Hquiet evs st2 Hrun Hnow) as Hentry.
    cbn [target fst snd lookup_entry] in Hentry.
    apply fmap_Some in Hentry as (v & Hcached & [= <-]).
    split; [by apply getHomeworks_hit|].
    apply invoke_hit. simpl. by rewrite Hcached.
  - pose proof (Hserved (AwaitOverview username)
                  (OverviewReply (Resolved raw)) _
                  (EAverages (getAverages_resume username (Some raw)
                                (wake i st)).2)
                  Hi eq_refl ltac:(unfold settle; by rewrite Hi)
                  ltac:(simpl; by rewrite lookup_insert_eq)
                  Hquiet evs st2 Hrun Hnow) as Hentry.
    cbn [target fst snd lookup_entry] in Hentry.
    apply fmap_Some in Hentry as (v & Hcached & [= <-]).
    split; [by apply getAverages_hit|].
    apply invoke_hit. simpl. by rewrite Hcached.
Qed.

End Window.

Lemma second_call_served_from_cache_witness :
  let st := elapse 250 (invoke (GetGrades "eleve" 0) (initial 0)) in
  let first :=
    getGrades_resume (H := sampleImports) "eleve" (Some sampleGradeBook)
      (wake 0 st) in
  ∃ st2,
    run (H := sampleImports)
      [Invoke (GetTimetable "eleve" 0); Elapse 29999] first.1 = Some st2 ∧
    now st2 = 30249 ∧
    getGrades (H := sampleImports) "eleve" 7 (Rejected (MkError "offline")) st2
    = (st2, Returned first.2).
Proof.
  cbv zeta.
  destruct (second_call_served_from_cache (H := sampleImports) "eleve" 7 0
              (elapse 250 (invoke (GetGrades "eleve" 0) (initial 0))))
    as (Hgrades & _).
  destruct (Hgrades sampleGradeBook (Rejected (MkError "offline")) eq_refl)
    as (_ & _ & Hwithin).
  assert (quiet CGrades "eleve"
            (wake 0 (elapse 250 (invoke (GetGrades "eleve" 0) (initial 0)))))
    as Hquiet.
  { split.
    - intros tm Htm. by apply elem_of_nil in Htm.
    - intros s Hs. by apply elem_of_nil in Hs. }
  eexists. split; [vm_compute; reflexivity|].
  split; [vm_compute; reflexivity|].
  refine (proj1 (Hwithin (or_introl Hquiet)
                   [Invoke (GetTimetable "eleve" 0); Elapse 29999] _ _ _)).
  - vm_compute. reflexivity.
  - vm_compute. reflexivity.
Defined.

(** C5, as stated, fails when two calls overlap.  Both calls of [getGrades]
    miss the cache.  The first one gets a gradebook with one mark and
    returns one grade, which is stored; 10 ms later the other one gets an
    empty gradebook and stores the empty list in its place.  The entry has
    not been deleted, no deletion has run, and the call made next returns
    the empty list, not the value of the first call. *)
Lemma overlapping_getGrades_second_call_differs :
  ∃ st st1 st2 v1,
    run (H := sampleImports)
      [Invoke (GetGrades "eleve" 0); Invoke (GetGrades "eleve" 0)] (initial 0)
    = Some st ∧
    getGrades_resume (H := sampleImports) "eleve" (Some sampleGradeBook)
      (wake 0 st) = (st1, v1) ∧
    settle (H := sampleImports) 0 (GradebookReply (Resolved sampleGradeBook)) st
    = Some st1 ∧
    grades (caches st1) !! "eleve" = Some v1 ∧
    run (H := sampleImports)
      [Elapse 10; Settle 0 (GradebookReply (Resolved (GradeBook.Make None)))]
      st1 = Some st2 ∧
    now st2 = 10 ∧ length (timers st2) = 2%nat ∧
    (∀ tm, tm ∈ timers st2 → Timer.due tm = 30000 ∨ Timer.due tm = 30010) ∧
    getGrades (H := sampleImports) "eleve" 0 (Rejected (MkError "offline")) st2
    = (st2, Returned []) ∧
    v1 ≠ [].
Proof.
  eexists _, _, _, _.
  split_and!; [vm_compute; reflexivity..| |vm_compute; reflexivity|].
  - vm_compute.
    intros tm [->|[->|[]%elem_of_nil]%elem_of_cons]%elem_of_cons; auto.
  - intros [=].
Qed.

(** ** The timetable entries *)

Section TimetableEntries.

Context `{Imports}.

Lemma slotOf_consistent v : consistent (slotOf v).
Proof. reflexivity. Qed.

Lemma fire_consistent cb cs :
  timetables_consistent cs → timetables_consistent (fire cb cs).
Proof.
  intros Hcs. destruct cb as [|c key]; [done|].
  destruct c; simpl; try done.
  intros username cached. simpl.
  intros [_ Hcached]%lookup_delete_Some. by eapply Hcs.
Qed.

Lemma fire_all_consistent (due : list Timer.t) cs :
  timetables_consistent cs →
  timetables_consistent
    (foldl (λ cs tm, fire (Timer.callback tm) cs) cs due).
Proof.
  revert cs. induction due as [|tm due IH]; intros cs Hcs; simpl; [done|].
  by apply IH, fire_consistent.
Qed.

Lemma resume_consistent s r st st' :
  timetables_consistent (caches st) → resume s r st = Some st' →
  timetables_consistent (caches st').
Proof.
  intros Hst.
  destruct s as [account session|username|username|username|username],
           r as [[]|[]|[raw|]|[]|[]];
    simpl; intros [= <-]; simpl; try done.
  intros username' cached. simpl.
  destruct (decide (username = username')) as [<-|Hne].
  - rewrite lookup_insert_eq. intros [= <-].
    apply Forall_forall. intros slot Hslot%list_elem_of_In.
    apply in_map_iff in Hslot as (v & <- & _). apply slotOf_consistent.
  - rewrite lookup_insert_ne by done. apply Hst.
Qed.

Lemma step_consistent e st st' :
  timetables_consistent (caches st) → step e st = Some st' →
  timetables_consistent (caches st').
Proof.
  intros Hst. destruct e as [r|i r|d]; simpl.
  - intros [= <-]. by destruct (invoke_frame r st) as (-> & _).
  - unfold settle. destruct (suspended st !! i) as [s|]; [|done].
    by apply resume_consistent.
  - case_decide; [|done]. intros [= <-]. by apply fire_all_consistent.
Qed.

Lemma run_consistent evs st st' :
  timetables_consistent (caches st) → run evs st = Some st' →
  timetables_consistent (caches st').
Proof.
  revert st. induction evs as [|e evs IH]; intros st Hst; simpl.
  - by intros [= <-].
  - destruct (step e st) as [st1|] eqn:Hstep; [|done].
    apply IH. by eapply step_consistent.
Qed.

(** C8: in every state the module can reach from its start, whatever
    calls, replies and delays led there, each entry of a timetable that
    [getTimetable] returns, fetched or served from the cache, has [absent]
    equal to [cancelled].  A fetched timetable has one entry per lesson,
    and both fields are the lesson's [isCancelled] flag, [false] when the
    lesson has none. *)
Theorem getTimetable_absent_equals_cancelled (t0 : Z) (evs : list Event)
    (st : State) (username : string) (session : SessionHandle)
    (reply : Settled (list Lesson.t)) :
  run evs (initial t0) = Some st →
  (∀ result slot,
     (getTimetable username session reply st).2 = Returned result →
     slot ∈ result → Slot.absent slot = Slot.cancelled slot) ∧
  (∀ raw, timetable (caches st) !! username = None → reply = Resolved raw →
          (getTimetable username session reply st).2
          = Returned (map slotOf raw)) ∧
  (∀ v, Slot.absent (slotOf v) = nullish (Lesson.isCancelled v) false ∧
        Slot.cancelled (slotOf v) = nullish (Lesson.isCancelled v) false).
Proof.
  intros Hrun.
  assert (timetables_consistent (caches st)) as Hst.
  { eapply run_consistent; [|done]. intros username' cached. simpl.
    by rewrite lookup_empty. }
  split_and!.
  - intros result slot. unfold getTimetable, getTimetable_begin.
    destruct (timetable (caches st) !! username) as [cached|] eqn:Hc; simpl.
    + intros [= <-] Hslot. specialize (Hst username cached Hc).
      rewrite Forall_forall in Hst. by apply Hst.
    + intros [= <-] Hslot. destruct reply as [raw|]; simpl in Hslot.
      * apply list_elem_of_In, in_map_iff in Hslot as (v & <- & _).
        apply slotOf_consistent.
      * by apply elem_of_nil in Hslot.
  - intros raw Hmiss ->. unfold getTimetable, getTimetable_begin.
    by rewrite Hmiss.
  - intros v. simpl. by destruct (Lesson.isCancelled v) as [[]|].
Qed.

End TimetableEntries.

Lemma getTimetable_absent_equals_cancelled_witness :
  ∃ slot,
    (getTimetable (H := sampleImports) "eleve" 0 (Resolved [sampleLesson])
       (initial 0)).2 = Returned [slot] ∧
    Slot.absent slot = Slot.cancelled slot.
Proof.
  eexists. split; [reflexivity|].
  destruct (getTimetable_absent_equals_cancelled (H := sampleImports)
              0 [] (initial 0) "eleve" 0 (Resolved [sampleLesson]) eq_refl)
    as (Hequal & _).
  eapply Hequal; [reflexivity|apply list_elem_of_here].
Defined.

(** ** The helper script *)

Module TaskListsFacts.

Import TaskLists.

Lemma find_default before list after :
  (∀ l, l ∈ before → title l ≠ Some "@default") →
  title list = Some "@default" →
  List.find isDefault (before ++ list :: after) = Some list.
Proof.
  intros Hbefore Hlist.
  induction before as [|l before IH]; simpl.
  - unfold isDefault. by rewrite bool_decide_eq_true_2.
  - unfold isDefault at 1. rewrite bool_decide_eq_false_2.
    + apply IH. intros l' Hl'. apply Hbefore. by apply list_elem_of_further.
    + apply Hbefore, list_elem_of_here.
Qed.

Lemma find_no_default lists :
  (∀ l, l ∈ lists → title l ≠ Some "@default") →
  List.find isDefault lists = None.
Proof.
  intros Hlists. induction lists as [|l lists IH]; simpl; [done|].
  unfold isDefault at 1. rewrite bool_decide_eq_false_2.
  - apply IH. intros l' Hl'. apply Hlists. by apply list_elem_of_further.
  - apply Hlists, list_elem_of_here.
Qed.

Lemma no_error_logged list others e :
  ErrorGettingTaskLists e
  ∉ (getTaskListId (Response (Some (list :: others)))).1.
Proof.
  unfold getTaskListId. set (items := list :: others).
  assert (∀ defaultList,
            ErrorGettingTaskLists e
            ∉ (AvailableTaskLists ::
               imap (λ index list,
                       Numbered (index + 1) (title list) (id list)) items)
              ++ [RecommendedTaskListId (id defaultList); CopyThisId])
    as Hconsole.
  { intros defaultList [Hin|Hin]%elem_of_app.
    - apply elem_of_cons in Hin as [[=]|Hin].
      by apply elem_of_lookup_imap in Hin as (? & ? & [=] & _).
    - repeat (apply elem_of_cons in Hin as [[=]|Hin]).
      by apply elem_of_nil in Hin. }
  destruct (List.find isDefault items); apply Hconsole.
Qed.

(** C7: [getTaskListId] returns the identifier of the (first) task list
    titled '@default' when the response has one, and otherwise the
    identifier of the first list of the response.  When something throws
    (before the response arrives, or because the response has no [items],
    or no list at all) it logs the error and returns [undefined]; it logs
    no error otherwise. *)
Theorem getTaskListId_default_or_first :
  (∀ before list after,
     (∀ l, l ∈ before → title l ≠ Some "@default") →
     title list = Some "@default" →
     (getTaskListId (Response (Some (before ++ list :: after)))).2
     = id list) ∧
  (∀ list others,
     (∀ l, l ∈ list :: others → title l ≠ Some "@default") →
     (getTaskListId (Response (Some (list :: others)))).2 = id list) ∧
  (∀ listing,
     match listing with
     | Response (Some (_ :: _)) =>
         ∀ e, ErrorGettingTaskLists e ∉ (getTaskListId listing).1
     | _ =>
         (getTaskListId listing).2 = None ∧
         ∃ e, ErrorGettingTaskLists e ∈ (getTaskListId listing).1
     end).
Proof.
  split_and!.
  - intros before list after Hbefore Hlist. unfold getTaskListId.
    by rewrite find_default.
  - intros list others Hnone. unfold getTaskListId.
    by rewrite find_no_default.
  - intros [e|[[|list others]|]]; simpl.
    + split; [done|]. exists e. apply list_elem_of_here.
    + split; [done|]. eexists.
      apply list_elem_of_further, list_elem_of_here.
    + intros e. apply no_error_logged.
    + split; [done|]. eexists.
      apply list_elem_of_further, list_elem_of_here.
Qed.

Lemma getTaskListId_default_or_first_witness :
  (getTaskListId
     (Response (Some [MkTaskList (Some "Courses") (Some "a1");
                      MkTaskList (Some "@default") (Some "b2")]))).2
  = Some "b2" ∧
  (getTaskListId
     (Response (Some [MkTaskList (Some "Courses") (Some "a1");
                      MkTaskList (Some "Devoirs") (Some "c3")]))).2
  = Some "a1".
Proof.
  destruct getTaskListId_default_or_first as (Hdefault & Hfirst & _).
  split.
  - apply (Hdefault [MkTaskList (Some "Courses") (Some "a1")]
             (MkTaskList (Some "@default") (Some "b2")) []); [|done].
    intros l Hl%list_elem_of_singleton. by subst l.
  - apply Hfirst.
    intros l [->|Hl%list_elem_of_singleton]%elem_of_cons; [done|].
    by subst l.
Defined.

End TaskListsFacts.



(** ** The dates computed from the clock *)

Module DateFacts.

Import JsDate.

(** The calendar. *)

Lemma DayFromYear_succ y : DayFromYear (y + 1) = DayFromYear y + DaysInYear y.
Proof.
  unfold DayFromYear, DaysInYear.
  repeat case_decide; Z.div_mod_to_equations; lia.
Qed.

Lemma DayFromYear_mono y y' : y ≤ y' → DayFromYear y ≤ DayFromYear y'.
Proof. unfold DayFromYear. intros. Z.div_mod_to_equations. lia. Qed.

(** [YearFromDay] is the year the day falls in, and the only one. *)
Lemma YearFromDay_spec d :
  DayFromYear (YearFromDay d) ≤ d < DayFromYear (YearFromDay d + 1).
Proof.
  unfold YearFromDay. cbv zeta.
  repeat case_decide; unfold DayFromYear in *; Z.div_mod_to_equations; lia.
Qed.

Lemma YearFromDay_unique d y :
  DayFromYear y ≤ d < DayFromYear (y + 1) → YearFromDay d = y.
Proof.
  intros Hy. pose proof (YearFromDay_spec d) as HY.
  destruct (Z.lt_trichotomy (YearFromDay d) y) as [Hlt|[Heq|Hgt]]; [|done|].
  - pose proof (DayFromYear_mono (YearFromDay d + 1) y). lia.
  - pose proof (DayFromYear_mono (y + 1) (YearFromDay d)). lia.
Qed.

Lemma MonthFromTime_range t : 0 ≤ MonthFromTime t ≤ 11.
Proof. unfold MonthFromTime. cbv zeta. repeat case_decide; lia. Qed.

Lemma DayWithinYear_range t :
  0 ≤ DayWithinYear t < DaysInYear (YearFromTime t).
Proof.
  unfold DayWithinYear, YearFromTime.
  pose proof (YearFromDay_spec (Day t)) as Hy.
  rewrite DayFromYear_succ in Hy. lia.
Qed.

Lemma DateFromTime_range t : 1 ≤ DateFromTime t ≤ 31.
Proof.
  pose proof (DayWithinYear_range t) as Hd.
  unfold DateFromTime, MonthFromTime, InLeapYear in *. cbv zeta.
  unfold DaysInYear in *.
  repeat case_decide; simpl; lia.
Qed.

(** [MakeDay] finds the first day of the month: the day it gives for date 1
    is in that year and that month, and its date is 1. *)
Lemma MakeDay_first year month :
  0 ≤ month ≤ 11 →
  let t := MakeDate (MakeDay year month 1) 0 in
  YearFromTime t = year ∧ MonthFromTime t = month ∧ DateFromTime t = 1.
Proof.
  intros Hmonth t.
  assert (Day t = DayFromYear year
                  + monthStart month (DaysInYear year - 365)) as Hday.
  { subst t. unfold Day, MakeDate, MakeDay. cbv zeta.
    rewrite (Z.div_small month 12), (Z.mod_small month 12) by lia.
    rewrite Z.add_0_r, Z.add_0_r.
    rewrite Z.div_mul by done. lia. }
  assert (YearFromTime t = year) as Hyear.
  { unfold YearFromTime. apply YearFromDay_unique.
    rewrite Hday, DayFromYear_succ. unfold DaysInYear.
    assert (month = 0 ∨ month = 1 ∨ month = 2 ∨ month = 3 ∨ month = 4 ∨
            month = 5 ∨ month = 6 ∨ month = 7 ∨ month = 8 ∨ month = 9 ∨
            month = 10 ∨ month = 11) as Hcases by lia.
    repeat case_decide;
      repeat (destruct Hcases as [->|Hcases]); try subst month; simpl; lia. }
  assert (MonthFromTime t = month) as Hm.
  { unfold MonthFromTime, DayWithinYear, InLeapYear. cbv zeta.
    rewrite Hyear, Hday. unfold DaysInYear.
    assert (month = 0 ∨ month = 1 ∨ month = 2 ∨ month = 3 ∨ month = 4 ∨
            month = 5 ∨ month = 6 ∨ month = 7 ∨ month = 8 ∨ month = 9 ∨
            month = 10 ∨ month = 11) as Hcases by lia.
    repeat (destruct Hcases as [->|Hcases]); try subst month; simpl;
      repeat case_decide; lia. }
  split_and!; [done..|].
  unfold DateFromTime, DayWithinYear, InLeapYear. rewrite Hm, Hyear, Hday. lia.
Qed.

(** Day 20394 is 2 November 2025, a Sunday; day 19782 is 29 February 2024;
    day -25508 is 1 March 1900, a year without a 29 February. *)
Example calendar_example :
  (let t := MakeDate 20394 0 in
   YearFromTime t = 2025 ∧ MonthFromTime t = 10 ∧ DateFromTime t = 2 ∧
   WeekDay t = 0) ∧
  (let t := MakeDate 19782 0 in
   YearFromTime t = 2024 ∧ MonthFromTime t = 1 ∧ DateFromTime t = 29) ∧
  (let t := MakeDate (-25508) 0 in
   YearFromTime t = 1900 ∧ MonthFromTime t = 2 ∧ DateFromTime t = 1).
Proof. vm_compute. done. Qed.

Lemma Day_MakeDate day time :
  0 ≤ time < msPerDay → Day (MakeDate day time) = day.
Proof.
  intros Htime. unfold Day, MakeDate. symmetry.
  apply (Z.div_unique _ _ _ time); [lia|]. lia.
Qed.

Lemma MakeDate_Day t : MakeDate (Day t) (TimeWithinDay t) = t.
Proof.
  unfold MakeDate, Day, TimeWithinDay.
  pose proof (Z.div_mod t msPerDay ltac:(done)). lia.
Qed.

Lemma TimeWithinDay_range t : 0 ≤ TimeWithinDay t < msPerDay.
Proof. apply Z.mod_pos_bound. done. Qed.

Lemma WeekDay_range t : 0 ≤ WeekDay t ≤ 6.
Proof.
  unfold WeekDay. pose proof (Z.mod_pos_bound (Day t + 4) 7 ltac:(done)). lia.
Qed.

(** The time within the day alone decides the hour, the minute, the second
    and the millisecond. *)
Lemma clock_MakeDate day time :
  HourFromTime (MakeDate day time) = HourFromTime time ∧
  MinFromTime (MakeDate day time) = MinFromTime time ∧
  SecFromTime (MakeDate day time) = SecFromTime time ∧
  msFromTime (MakeDate day time) = msFromTime time.
Proof.
  unfold HourFromTime, MinFromTime, SecFromTime, msFromTime, MakeDate,
    msPerDay, msPerHour, msPerMinute, msPerSecond.
  split_and!.
  - replace (day * 86400000 + time) with (time + (day * 24) * 3600000) by lia.
    rewrite Z.div_add by done.
    by rewrite Z.add_mod, Z.mod_mul, Z.add_0_r, Z.mod_mod.
  - replace (day * 86400000 + time) with (time + (day * 1440) * 60000) by lia.
    rewrite Z.div_add by done.
    replace (day * 1440) with ((day * 24) * 60) by lia.
    by rewrite Z.add_mod, Z.mod_mul, Z.add_0_r, Z.mod_mod.
  - replace (day * 86400000 + time) with (time + (day * 86400) * 1000) by lia.
    rewrite Z.div_add by done.
    replace (day * 86400) with ((day * 1440) * 60) by lia.
    by rewrite Z.add_mod, Z.mod_mul, Z.add_0_r, Z.mod_mod.
  - replace (day * 86400000 + time) with (time + (day * 86400) * 1000) by lia.
    by rewrite Z.mod_add.
Qed.

Lemma clock_of day time :
  0 ≤ time < msPerDay →
  Day (MakeDate day time) = day ∧
  WeekDay (MakeDate day time) = (day + 4) mod 7 ∧
  HourFromTime (MakeDate day time) = HourFromTime time ∧
  MinFromTime (MakeDate day time) = MinFromTime time ∧
  SecFromTime (MakeDate day time) = SecFromTime time ∧
  msFromTime (MakeDate day time) = msFromTime time.
Proof.
  intros Htime. destruct (clock_MakeDate day time) as (Hh & Hm & Hs & Hms).
  unfold WeekDay. rewrite Day_MakeDate by done. done.
Qed.

Section Local.

Context `{TimeZone}.

(** Setting the date to the current one plus [k] moves the date by [k] whole
    days, across the ends of months and years. *)
Lemma setDate_offset k d : setDate (getDate d + k) d = d + k * msPerDay.
Proof.
  unfold setDate, getDate, UTC, MakeDate, MakeDay, DateFromTime, InLeapYear.
  cbv zeta. set (t := LocalTime d).
  pose proof (MonthFromTime_range t) as Hm.
  rewrite (Z.div_small (MonthFromTime t) 12), (Z.mod_small (MonthFromTime t) 12)
    by lia.
  rewrite Z.add_0_r. unfold DayWithinYear.
  generalize (monthStart (MonthFromTime t) (DaysInYear (YearFromTime t) - 365)).
  generalize (DayFromYear (YearFromTime t)). intros first start.
  unfold TimeWithinDay, Day, msPerDay. subst t. unfold LocalTime.
  Z.div_mod_to_equations. lia.
Qed.

Lemma getCurrentMonday_local now :
  LocalTime (getCurrentMonday now)
  = MakeDate (Day (LocalTime now) + 1 - getDay now) msPerHour.
Proof.
  unfold getCurrentMonday. cbv zeta.
  replace (getDate now - getDay now + 1) with (getDate now + (1 - getDay now))
    by lia.
  rewrite setDate_offset. unfold setHours, nullish. cbv zeta.
  change (MakeTime 1 0 0 0) with msPerHour.
  unfold UTC, LocalTime at 1.
  replace (LocalTime (now + (1 - getDay now) * msPerDay))
    with (MakeDate (Day (LocalTime now) + (1 - getDay now))
            (TimeWithinDay (LocalTime now))).
  - rewrite Day_MakeDate by apply TimeWithinDay_range.
    replace (Day (LocalTime now) + (1 - getDay now))
      with (Day (LocalTime now) + 1 - getDay now) by lia. lia.
  - pose proof (MakeDate_Day (LocalTime now)) as Hsplit.
    unfold MakeDate, LocalTime in *. lia.
Qed.

(** X1: [getCurrentMonday] returns a Monday at 01:00:00.000 local time: the
    Monday of the week that began on the last Sunday, today counting.  From
    Monday to Saturday this is the Monday on or before today; on a Sunday it
    is tomorrow. *)
Theorem getCurrentMonday_is_monday_1am (now : Z) :
  let monday := getCurrentMonday now in
  getDay monday = 1 ∧
  getHours monday = 1 ∧ getMinutes monday = 0 ∧
  getSeconds monday = 0 ∧ getMilliseconds monday = 0 ∧
  Day (LocalTime monday) = Day (LocalTime now) + 1 - getDay now ∧
  (getDay now = 0 → Day (LocalTime monday) = Day (LocalTime now) + 1) ∧
  Day (LocalTime now) - 5 ≤ Day (LocalTime monday) ≤ Day (LocalTime now) + 1.
Proof.
  cbv zeta. pose proof (getCurrentMonday_local now) as Hlocal.
  pose proof (WeekDay_range (LocalTime now)) as Hw.
  unfold getDay, getHours, getMinutes, getSeconds, getMilliseconds in *.
  destruct (clock_of (Day (LocalTime now) + 1 - WeekDay (LocalTime now))
              msPerHour) as (Hd & Hwd & Hh & Hm & Hs & Hms); [done|].
  rewrite Hlocal, Hd, Hwd, Hh, Hm, Hs, Hms. split_and!; try done; try lia.
  revert Hw. unfold WeekDay. generalize (Day (LocalTime now)). intros D Hw.
  Z.div_mod_to_equations. lia.
Qed.

Lemma week_interval monday now :
  LocalTime monday
  = MakeDate (Day (LocalTime now) + 1 - getDay now) msPerHour →
  let friday := monday + 5 * 24 * 3600 * 1000 in
  friday - monday = 5 * msPerDay ∧
  getDay friday = 6 ∧
  getHours friday = 1 ∧ getMinutes friday = 0 ∧
  getSeconds friday = 0 ∧ getMilliseconds friday = 0 ∧
  (monday ≤ now < friday ↔
   getDay now ≠ 0 ∧
   (getDay now = 1 → msPerHour ≤ TimeWithinDay (LocalTime now)) ∧
   (getDay now = 6 → TimeWithinDay (LocalTime now) < msPerHour)).
Proof.
  intros Hlocal friday.
  pose proof (WeekDay_range (LocalTime now)) as Hw.
  pose proof (TimeWithinDay_range (LocalTime now)) as Hr.
  pose proof (MakeDate_Day (LocalTime now)) as Hnow.
  assert (LocalTime friday
          = MakeDate (Day (LocalTime now) + 6 - getDay now) msPerHour)
    as Hfriday
    by (subst friday; unfold LocalTime, MakeDate, msPerDay in *; lia).
  unfold getDay, getHours, getMinutes, getSeconds, getMilliseconds in *.
  destruct (clock_of (Day (LocalTime now) + 6 - WeekDay (LocalTime now))
              msPerHour) as (_ & Hwd & Hh & Hm & Hs & Hms); [done|].
  rewrite Hfriday, Hwd, Hh, Hm, Hs, Hms. split_and!; try done.
  - subst friday. unfold msPerDay. lia.
  - revert Hw. unfold WeekDay. generalize (Day (LocalTime now)). intros D Hw.
    Z.div_mod_to_equations. lia.
  - revert Hlocal Hw Hr Hnow. subst friday.
    generalize (WeekDay (LocalTime now)) (Day (LocalTime now))
      (TimeWithinDay (LocalTime now)).
    intros w D r. unfold LocalTime, MakeDate, msPerDay, msPerHour. lia.
Qed.

(** X2: the interval that [getTimetable] asks for is exactly 5 days long and
    runs from Monday 01:00 to Saturday 01:00 local time (the date named
    [currentFriday] is a Saturday).  The present moment is inside it except
    on a Sunday, on a Monday before 01:00 and on a Saturday from 01:00 on. *)
Theorem timetableInterval_week (now : Z) :
  let '(currentMonday, currentFriday) := timetableInterval now in
  currentFriday - currentMonday = 5 * msPerDay ∧
  getDay currentFriday = 6 ∧
  getHours currentFriday = 1 ∧ getMinutes currentFriday = 0 ∧
  getSeconds currentFriday = 0 ∧ getMilliseconds currentFriday = 0 ∧
  (currentMonday ≤ now < currentFriday ↔
   getDay now ≠ 0 ∧
   (getDay now = 1 → msPerHour ≤ TimeWithinDay (LocalTime now)) ∧
   (getDay now = 6 → TimeWithinDay (LocalTime now) < msPerHour)).
Proof. exact (week_interval _ now (getCurrentMonday_local now)). Qed.

Lemma yesterday_midnight before now sec ms :
  LocalTime before = LocalTime now - msPerDay →
  sec = SecFromTime (LocalTime before) → ms = msFromTime (LocalTime before) →
  let yesterday :=
    UTC (MakeDate (Day (LocalTime before)) (MakeTime 0 0 sec ms)) in
  Day (LocalTime yesterday) = Day (LocalTime now) - 1 ∧
  getHours yesterday = 0 ∧ getMinutes yesterday = 0 ∧
  getSeconds yesterday = getSeconds now ∧
  getMilliseconds yesterday = getMilliseconds now ∧
  now - 2 * msPerDay < yesterday ≤ now - msPerDay.
Proof.
  intros Hbefore Hsec Hms yesterday.
  pose proof (TimeWithinDay_range (LocalTime now)) as Hr.
  pose proof (MakeDate_Day (LocalTime now)) as Hnow.
  assert (LocalTime before
          = MakeDate (Day (LocalTime now) - 1) (TimeWithinDay (LocalTime now)))
    as Hsplit
    by (rewrite Hbefore; unfold MakeDate, msPerDay in *; lia).
  destruct (clock_of (Day (LocalTime now) - 1) (TimeWithinDay (LocalTime now)))
    as (Hd & _ & _ & _ & Hs & Hm); [done|].
  destruct (clock_of (Day (LocalTime now)) (TimeWithinDay (LocalTime now)))
    as (_ & _ & _ & _ & Hs0 & Hm0); [done|].
  rewrite <- Hsplit in Hd, Hs, Hm. rewrite Hnow in Hs0, Hm0.
  rewrite Hs in Hsec. rewrite Hm in Hms. rewrite <- Hs0 in Hsec.
  rewrite <- Hm0 in Hms. clear Hs Hm Hs0 Hm0.
  assert (0 ≤ sec < 60) as Hsec_range
    by (rewrite Hsec; apply Z.mod_pos_bound; done).
  assert (0 ≤ ms < 1000) as Hms_range
    by (rewrite Hms; apply Z.mod_pos_bound; done).
  assert (MakeTime 0 0 sec ms = sec * 1000 + ms) as Htime by done.
  assert (sec * 1000 + ms ≤ TimeWithinDay (LocalTime now)) as Hle.
  { pose proof (MakeDate_Day (LocalTime now)) as Hsplit'.
    rewrite Hsec, Hms. unfold SecFromTime, msFromTime, msPerSecond.
    revert Hr Hsplit'. unfold MakeDate, msPerDay.
    generalize (TimeWithinDay (LocalTime now)) (Day (LocalTime now))
      (LocalTime now). intros r D t Hr Ht.
    Z.div_mod_to_equations. lia. }
  assert (LocalTime yesterday
          = MakeDate (Day (LocalTime now) - 1) (sec * 1000 + ms)) as Hlocal
    by (subst yesterday; rewrite Hd, Htime; unfold LocalTime, UTC; lia).
  destruct (clock_of (Day (LocalTime now) - 1) (sec * 1000 + ms))
    as (Hd' & _ & Hh' & Hm' & Hs' & Hms'); [unfold msPerDay; lia|].
  unfold getHours, getMinutes, getSeconds, getMilliseconds.
  rewrite Hlocal, Hd', Hh', Hm', Hs', Hms', <- Hsec, <- Hms.
  assert (yesterday = MakeDate (Day (LocalTime now) - 1) (sec * 1000 + ms)
                      - LocalTZA) as Hutc
    by (unfold LocalTime in Hlocal at 1; lia).
  split_and!; try done.
  - unfold HourFromTime, msPerHour. rewrite Z.div_small by lia. done.
  - unfold MinFromTime, msPerMinute. rewrite Z.div_small by lia. done.
  - unfold SecFromTime, msPerSecond.
    replace (sec * 1000 + ms) with (ms + sec * 1000) by lia.
    rewrite Z.div_add, (Z.div_small ms) by lia. simpl.
    apply Z.mod_small. lia.
  - unfold msFromTime, msPerSecond.
    replace (sec * 1000 + ms) with (ms + sec * 1000) by lia.
    rewrite Z.mod_add by done. apply Z.mod_small. lia.
  - rewrite Hutc. revert Hnow. unfold MakeDate, LocalTime, msPerDay in *.
    lia.
  - rewrite Hutc. revert Hnow. unfold MakeDate, LocalTime, msPerDay in *.
    lia.
Qed.

(** X3: the interval that [getHomeworks] asks for starts on the day before
    today, at hour 0 and minute 0 local time with the seconds and the
    milliseconds of the clock kept (so between 24 and 48 hours ago), and
    ends exactly 151 days later. *)
Theorem homeworksInterval_bounds (now : Z) :
  let '(yesterday, farAwayInTime) := homeworksInterval now in
  farAwayInTime - yesterday = 151 * msPerDay ∧
  Day (LocalTime yesterday) = Day (LocalTime now) - 1 ∧
  getHours yesterday = 0 ∧ getMinutes yesterday = 0 ∧
  getSeconds yesterday = getSeconds now ∧
  getMilliseconds yesterday = getMilliseconds now ∧
  now - 2 * msPerDay < yesterday ≤ now - msPerDay.
Proof.
  unfold homeworksInterval, getTime, setHours, nullish. cbv zeta. split.
  - unfold msPerDay. lia.
  - apply (yesterday_midnight (now - 24 * 60 * 60 * 1000) now); [|done..].
    unfold LocalTime, msPerDay. lia.
Qed.

(** A day given by its year and its day within the year. *)
Lemma day_within_year t year k :
  Day t = DayFromYear year + k → 0 ≤ k < DaysInYear year →
  YearFromTime t = year ∧ DayWithinYear t = k ∧
  InLeapYear t = DaysInYear year - 365.
Proof.
  intros Hday Hk.
  assert (YearFromTime t = year) as Hyear.
  { unfold YearFromTime. apply YearFromDay_unique.
    rewrite DayFromYear_succ. lia. }
  unfold DayWithinYear, InLeapYear. rewrite Hyear. split_and!; [done|lia|done].
Qed.

Lemma newDate_local year month date :
  ¬ 0 ≤ year ≤ 99 → 0 ≤ month ≤ 11 →
  LocalTime (newDate year month date)
  = MakeDate (DayFromYear year + monthStart month (DaysInYear year - 365)
              + date - 1) 0.
Proof.
  intros Hyear Hmonth. unfold newDate. cbv zeta.
  rewrite decide_False by done. unfold MakeDay. cbv zeta.
  rewrite (Z.div_small month 12), (Z.mod_small month 12) by lia.
  rewrite Z.add_0_r. change (MakeTime 0 0 0 0) with 0.
  unfold LocalTime, UTC. lia.
Qed.

(** X14: in a year after 99, the period that [getGrades] and [getAverages]
    ask for runs from 1 September of the current calendar year, 00:00 local
    time, to 30 June of the next year, 00:00.  The present moment is before
    its end, and it is inside the period only from September on: from
    January to August the whole period lies in the future. *)
Theorem currentPeriod_starts_in_september (now : Z) :
  100 ≤ getFullYear now →
  let '(startDate, endDate) := currentPeriod now in
  (getFullYear startDate = getFullYear now ∧ getMonth startDate = 8 ∧
   getDate startDate = 1 ∧ TimeWithinDay (LocalTime startDate) = 0) ∧
  (getFullYear endDate = getFullYear now + 1 ∧ getMonth endDate = 5 ∧
   getDate endDate = 30 ∧ TimeWithinDay (LocalTime endDate) = 0) ∧
  (startDate ≤ now ↔ 8 ≤ getMonth now) ∧
  now < endDate.
Proof.
  intros Hyear. unfold currentPeriod. cbv zeta.
  set (Y := getFullYear now) in *.
  pose proof (newDate_local Y 8 1 ltac:(lia) ltac:(lia)) as Hstart.
  pose proof (newDate_local (Y + 1) 5 30 ltac:(lia) ltac:(lia)) as Hend.
  set (startDate := newDate Y 8 1) in *.
  set (endDate := newDate (Y + 1) 5 30) in *.
  clearbody startDate endDate.
  assert (DaysInYear Y = 365 ∨ DaysInYear Y = 366) as HY
    by (unfold DaysInYear; repeat case_decide; lia).
  assert (DaysInYear (Y + 1) = 365 ∨ DaysInYear (Y + 1) = 366) as HY1
    by (unfold DaysInYear; repeat case_decide; lia).
  simpl monthStart in Hstart, Hend.
  destruct (day_within_year (LocalTime startDate) Y
              (243 + (DaysInYear Y - 365)))
    as (Hsy & Hsd & Hsl); [rewrite Hstart, Day_MakeDate by done; lia|lia|].
  destruct (day_within_year (LocalTime endDate) (Y + 1)
              (151 + (DaysInYear (Y + 1) - 365) + 29))
    as (Hey & Hed & Hel); [rewrite Hend, Day_MakeDate by done; lia|lia|].
  pose proof (YearFromDay_spec (Day (LocalTime now))) as Hnow.
  fold (YearFromTime (LocalTime now)) in Hnow. fold (getFullYear now) in Hnow.
  fold Y in Hnow. rewrite DayFromYear_succ in Hnow.
  pose proof (MakeDate_Day (LocalTime now)) as Hsplit.
  pose proof (TimeWithinDay_range (LocalTime now)) as Hr.
  split_and!.
  - done.
  - unfold getMonth, MonthFromTime. cbv zeta. rewrite Hsd, Hsl.
    repeat case_decide; lia.
  - unfold getDate, DateFromTime.
    assert (MonthFromTime (LocalTime startDate) = 8) as ->
      by (unfold MonthFromTime; cbv zeta; rewrite Hsd, Hsl;
          repeat case_decide; lia).
    rewrite Hsd, Hsl. simpl. lia.
  - rewrite Hstart. unfold TimeWithinDay, MakeDate.
    by rewrite Z.add_0_r, Z.mod_mul.
  - done.
  - unfold getMonth, MonthFromTime. cbv zeta. rewrite Hed, Hel.
    repeat case_decide; lia.
  - unfold getDate, DateFromTime.
    assert (MonthFromTime (LocalTime endDate) = 5) as ->
      by (unfold MonthFromTime; cbv zeta; rewrite Hed, Hel;
          repeat case_decide; lia).
    rewrite Hed, Hel. simpl. lia.
  - rewrite Hend. unfold TimeWithinDay, MakeDate.
    by rewrite Z.add_0_r, Z.mod_mul.
  - assert (startDate ≤ now ↔
            DayFromYear Y + 243 + (DaysInYear Y - 365) ≤ Day (LocalTime now))
      as ->.
    { assert (LocalTime now = now + LocalTZA) as Hlocal by done.
      assert (LocalTime startDate = startDate + LocalTZA) as Hlocal' by done.
      revert Hstart Hsplit Hr Hlocal Hlocal'. unfold MakeDate, msPerDay.
      generalize (Day (LocalTime now)) (TimeWithinDay (LocalTime now))
        (LocalTime now) (LocalTime startDate).
      intros D r l l'. lia. }
    unfold getMonth, MonthFromTime, DayWithinYear, InLeapYear. cbv zeta.
    fold (getFullYear now). fold Y.
    repeat case_decide; lia.
  - assert (LocalTime now = now + LocalTZA) as Hlocal by done.
    assert (LocalTime endDate = endDate + LocalTZA) as Hlocal' by done.
    pose proof (DayFromYear_succ Y) as Hsucc.
    revert Hend Hsplit Hr Hnow Hlocal Hlocal' Hsucc.
    unfold MakeDate, msPerDay.
    generalize (Day (LocalTime now)) (TimeWithinDay (LocalTime now))
      (LocalTime now) (LocalTime endDate).
    intros D r l l'. lia.
Qed.

End Local.

Lemma currentPeriod_starts_in_september_witness :
  let zone := {| LocalTZA := 3600000 |} in
  let now := MakeDate 20394 43200000 in
  let '(startDate, endDate) := currentPeriod (H := zone) now in
  startDate ≤ now < endDate ∧ getMonth (H := zone) now = 10.
Proof.
  cbv zeta.
  pose proof (currentPeriod_starts_in_september (H := {| LocalTZA := 3600000 |})
                (MakeDate 20394 43200000)
                ltac:(apply Z.leb_le; vm_compute; reflexivity)) as Hperiod.
  destruct (currentPeriod (MakeDate 20394 43200000)) as [startDate endDate].
  destruct Hperiod as (_ & _ & Hin & Hend).
  assert (getMonth (H := {| LocalTZA := 3600000 |}) (MakeDate 20394 43200000)
          = 10) as Hmonth by (vm_compute; reflexivity).
  split; [|exact Hmonth]. split; [|exact Hend].
  apply Hin. rewrite Hmonth. lia.
Defined.

End DateFacts.

(** ** No entry outlives its delay *)

Section Staleness.

Context `{Imports}.

Lemma fire_all_lookup_Some c key (due : list Timer.t) cs :
  is_Some (lookup_entry c key
             (foldl (λ cs tm, fire (Timer.callback tm) cs) cs due)) →
  is_Some (lookup_entry c key cs).
Proof.
  destruct (lookup_entry c key cs) eqn:Hcs; [by eexists|].
  rewrite fire_all_lookup_None by done. by intros [? [=]].
Qed.

Lemma expiring_initial t0 : expiring (initial t0).
Proof.
  split.
  - intros c key. destruct c; simpl; rewrite lookup_empty; by intros [? [=]].
  - intros tm c key Hin. by apply elem_of_nil in Hin.
Qed.

Lemma expiring_step e st st' :
  expiring st → step e st = Some st' → expiring st'.
Proof.
  intros [Hcovered Hdue]. destruct e as [r|i r|d]; simpl.
  - intros [= <-]. destruct (invoke_frame r st) as (Hc & Hn & Ht & _).
    unfold expiring. by rewrite Hc, Hn, Ht.
  - unfold settle. destruct (suspended st !! i) as [s|]; [|done].
    intros Hresume. destruct (resolved r) eqn:Hr.
    + destruct (resume_frame _ _ _ _ Hresume)
        as (Hn & _ & Hother & new & Htimers & _).
      destruct (resume_resolved _ _ _ _ Hresume Hr)
        as (_ & earlier & Hlast & Hearlier).
      simpl in Hn, Hother, Htimers, Hlast, Hearlier. split.
      * intros c key Hsome.
        destruct (decide ((c, key) = target s)) as [Heq|Hne].
        -- eexists. split.
           ++ rewrite Hlast. apply elem_of_app. right. apply list_elem_of_here.
           ++ simpl. by rewrite <- Heq.
        -- rewrite Hother in Hsome by done.
           destruct (Hcovered c key Hsome) as (tm & Hin & Hcb).
           exists tm. split; [|done]. rewrite Htimers.
           apply elem_of_app. by left.
      * rewrite Hlast, Hn.
        intros tm c key [Hin|Hin%list_elem_of_singleton]%elem_of_app Hcb.
        -- destruct (Hearlier tm Hin) as [Hold|Hexp]; [|congruence].
           by eapply Hdue.
        -- subst tm. simpl in Hcb. injection Hcb as <- <-. simpl. lia.
    + apply resume_rejected in Hresume; [|done]. by subst st'.
  - case_decide; [|done]. intros [= <-]. split.
    + intros c key Hsome.
      assert (is_Some (lookup_entry c key (caches st))) as Hbefore
        by exact (fire_all_lookup_Some c key _ (caches st) Hsome).
      destruct (Hcovered c key Hbefore) as (tm & Hin & Hcb).
      exists tm. split; [|done]. simpl. apply list_elem_of_filter.
      split; [|done]. intros Hearly.
      rewrite (elapse_deletes tm c key d st) in Hsome by done.
      by destruct Hsome as [? [=]].
    + simpl. intros tm c key [_ Hin]%list_elem_of_filter Hcb.
      specialize (Hdue tm c key Hin Hcb). lia.
Qed.

Lemma expiring_run evs st st' : expiring st → run evs st = Some st' → expiring st'.
Proof.
  revert st. induction evs as [|e evs IH]; intros st Hst; simpl.
  - by intros [= <-].
  - destruct (step e st) as [st1|] eqn:Hstep; [|done].
    apply IH. by eapply expiring_step.
Qed.

(** X4: in every state the module can reach, whatever calls, replies and
    delays led there and however the calls overlapped, each key in a cache
    has a deletion pending that is due within the delay of its cache (the
    delay that the timer gets for [cacheTtl], and for
    [config.accountTimeout - 120000] in the session cache).  So
    once that delay has passed without a reply arriving, the key is in the
    cache no more: no entry is served for longer than the delay of its
    cache. *)
Theorem no_entry_outlives_its_delay (t0 : Z) (evs : list Event) (st : State) :
  run evs (initial t0) = Some st →
  (∀ c key, is_Some (lookup_entry c key (caches st)) →
            ∃ tm, tm ∈ timers st ∧ Timer.callback tm = DeleteKey c key ∧
                  Timer.due tm ≤ now st + ttl c) ∧
  (∀ c key d, 0 ≤ d → ttl c ≤ d →
              lookup_entry c key (caches (elapse d st)) = None).
Proof.
  intros Hrun.
  destruct (expiring_run _ _ _ (expiring_initial t0) Hrun) as [Hcovered Hdue].
  split.
  - intros c key Hsome. destruct (Hcovered c key Hsome) as (tm & Hin & Hcb).
    exists tm. split_and!; [done..|]. by eapply Hdue.
  - intros c key d Hd Httl.
    destruct (lookup_entry c key (caches st)) as [e|] eqn:Hentry.
    + destruct (Hcovered c key) as (tm & Hin & Hcb); [by rewrite Hentry|].
      eapply elapse_deletes; [done..|].
      specialize (Hdue tm c key Hin Hcb). lia.
    + simpl. by apply fire_all_lookup_None.
Qed.

End Staleness.

Lemma no_entry_outlives_its_delay_witness :
  let evs :=
    [Invoke (GetGrades "eleve" 0); Invoke (GetGrades "eleve" 0);
     Settle 0 (GradebookReply (Resolved sampleGradeBook)); Elapse 10;
     Settle 0 (GradebookReply (Resolved sampleGradeBook))] in
  ∃ st,
    run (H := sampleImports) evs (initial 0) = Some st ∧
    is_Some (grades (caches st) !! "eleve") ∧
    grades (caches (elapse 30000 st)) !! "eleve" = None.
Proof.
  cbv zeta. eexists. split; [vm_compute; reflexivity|].
  split; [vm_compute; by eexists|].
  destruct (no_entry_outlives_its_delay (H := sampleImports) 0
              [Invoke (GetGrades "eleve" 0); Invoke (GetGrades "eleve" 0);
               Settle 0 (GradebookReply (Resolved sampleGradeBook)); Elapse 10;
               Settle 0 (GradebookReply (Resolved sampleGradeBook))]
              _ ltac:(vm_compute; reflexivity)) as [_ Hgone].
  specialize (Hgone CGrades "eleve" 30000 ltac:(done)
                ltac:(apply Z.leb_le; vm_compute; reflexivity)).
  unfold lookup_entry in Hgone. by apply fmap_None in Hgone.
Defined.

(** ** Where the cached session handles come from *)

Section Provenance.

Context `{Imports}.

Lemma logged_in_initial t0 : logged_in [] (initial t0).
Proof.
  split_and!; simpl.
  - intros h a Hin. by apply elem_of_nil in Hin.
  - intros h a a' Hin. by apply elem_of_nil in Hin.
  - intros a h Hin. by apply elem_of_nil in Hin.
  - intros h a Hin. by apply elem_of_nil in Hin.
  - intros u h. by rewrite lookup_empty.
Qed.

(** A call other than a login, added to the record. *)
Lemma logged_in_call succeeded c s st :
  (∀ h a, c ≠ LoginCredentials h a) → (∀ a h, s ≠ AwaitLogin a h) →
  logged_in succeeded st → logged_in succeeded (suspend s (call c st)).
Proof.
  intros Hc Hs (Hcreated & Hunique & Hsusp & Hrecord & Hcached).
  assert (∀ h a, LoginCredentials h a ∈ calls st ++ [c] →
                 LoginCredentials h a ∈ calls st) as Hold.
  { intros h a [Hin|Hin%list_elem_of_singleton]%elem_of_app; [done|].
    by destruct (Hc h a). }
  split_and!; simpl.
  - intros h a Hin%Hold. by eapply Hcreated.
  - intros h a a' Hin%Hold Hin'%Hold. by eapply Hunique.
  - intros a h [Hin|Hin%list_elem_of_singleton]%elem_of_app.
    + apply elem_of_app. left. by apply Hsusp.
    + by destruct (Hs a h).
  - intros h a Hin. apply elem_of_app. left. by apply Hrecord.
  - done.
Qed.

Lemma logged_in_invoke succeeded r st :
  logged_in succeeded st → logged_in succeeded (invoke r st).
Proof.
  intros Hst.
  destruct r as [account|username session|username session
                |username session|username session]; simpl.
  - unfold getSession_begin.
    destruct (sessions (caches st) !! Account.username account); [done|].
    destruct Hst as (Hcreated & Hunique & Hsusp & Hrecord & Hcached). simpl.
    assert (∀ h a,
              LoginCredentials h a
              ∈ (calls st ++ [CreateSessionHandle])
                ++ [LoginCredentials (created st) account] →
              LoginCredentials h a ∈ calls st ∨
              (h = created st ∧ a = account)) as Hcases.
    { intros h a [[Hin|Hin%list_elem_of_singleton]%elem_of_app
                 |Hin%list_elem_of_singleton]%elem_of_app;
        [by left|done|]. injection Hin as -> ->. by right. }
    split_and!; simpl.
    + intros h a [Hin|[-> _]]%Hcases; [|lia].
      specialize (Hcreated h a Hin). lia.
    + intros h a a' [Hin|[-> ->]]%Hcases [Hin'|[Hh ->]]%Hcases.
      * by eapply Hunique.
      * subst h. specialize (Hcreated _ _ Hin). lia.
      * specialize (Hcreated _ _ Hin'). lia.
      * done.
    + intros a h [Hin|Hin%list_elem_of_singleton]%elem_of_app.
      * apply elem_of_app. left. apply elem_of_app. left. by apply Hsusp.
      * injection Hin as -> ->. apply elem_of_app. right.
        apply list_elem_of_here.
    + intros h a Hin. apply elem_of_app. left. apply elem_of_app. left.
      by apply Hrecord.
    + done.
  - unfold getGrades_begin.
    destruct (grades (caches st) !! username); [done|].
    by apply logged_in_call.
  - unfold getTimetable_begin.
    destruct (timetable (caches st) !! username); [done|].
    by apply logged_in_call.
  - unfold getHomeworks_begin.
    destruct (homeworks (caches st) !! username); [done|].
    by apply logged_in_call.
  - unfold getAverages_begin.
    destruct (averages (caches st) !! username); [done|].
    by apply logged_in_call.
Qed.

(** A reply: only a login that succeeds puts a handle in the cache, and it
    is then added to the logins that succeeded. *)
Lemma logged_in_settle succeeded i r st st' :
  logged_in succeeded st → settle i r st = Some st' →
  logged_in (succeeded ++ login_of (Settle i r) st) st'.
Proof.
  intros (Hcreated & Hunique & Hsusp & Hrecord & Hcached).
  unfold settle, login_of.
  destruct (suspended st !! i) as [s|] eqn:Hi; [|done].
  assert (s ∈ suspended st) as Hs by (by eapply list_elem_of_lookup_2).
  assert (∀ a h, AwaitLogin a h ∈ delete i (suspended st) →
                 LoginCredentials h a ∈ calls st) as Hsusp'.
  { intros a h Hin%list_elem_of_delete_inv. by apply Hsusp. }
  destruct s as [account session|username|username|username|username],
           r as [[]|[]|[]|[]|[]];
    simpl; intros [= <-]; rewrite ?app_nil_r; simpl; try done.
  split_and!; simpl; [done..| |].
  - intros h' a' [Hin|Hin%list_elem_of_singleton]%elem_of_app;
      [by apply Hrecord|]. injection Hin as -> ->. by apply Hsusp.
  - intros u h'.
    destruct (decide (Account.username account = u)) as [<-|Hne].
    + rewrite lookup_insert_eq. intros [= <-]. exists account.
      split; [done|]. apply elem_of_app. right. apply list_elem_of_here.
    + rewrite lookup_insert_ne by done. intros Hu.
      destruct (Hcached u h' Hu) as (a' & Ha & Hin).
      exists a'. split; [done|]. apply elem_of_app. by left.
Qed.

Lemma fire_all_sessions (due : list Timer.t) cs u h :
  sessions (foldl (λ cs tm, fire (Timer.callback tm) cs) cs due) !! u = Some h →
  sessions cs !! u = Some h.
Proof.
  revert cs. induction due as [|tm due IH]; intros cs; simpl; [done|].
  intros Hu%IH. destruct (Timer.callback tm) as [|[] key]; simpl in Hu;
    try done.
  by apply lookup_delete_Some in Hu as [_ Hu].
Qed.

Lemma logged_in_step succeeded e st st' :
  logged_in succeeded st → step e st = Some st' →
  logged_in (succeeded ++ login_of e st) st'.
Proof.
  intros Hst. destruct e as [r|i r|d].
  - simpl. intros [= <-]. rewrite app_nil_r. by apply logged_in_invoke.
  - by apply logged_in_settle.
  - simpl. case_decide; [|done]. intros [= <-]. rewrite app_nil_r.
    destruct Hst as (Hcreated & Hunique & Hsusp & Hrecord & Hcached).
    split_and!; simpl; [done..|].
    intros u h Hu%fire_all_sessions. by apply Hcached.
Qed.

Lemma logged_in_run succeeded evs st st' :
  logged_in succeeded st → run evs st = Some st' →
  logged_in (succeeded ++ logins evs st) st'.
Proof.
  revert succeeded st. induction evs as [|e evs IH]; intros succeeded st Hst;
    simpl.
  - intros [= <-]. by rewrite app_nil_r.
  - destruct (step e st) as [st1|] eqn:Hstep; [|done].
    intros Hrun. rewrite app_assoc. apply IH; [|done].
    by apply logged_in_step.
Qed.

Lemma logged_in_reachable t0 evs st :
  run evs (initial t0) = Some st → logged_in (logins evs (initial t0)) st.
Proof. intros Hrun. exact (logged_in_run [] _ _ _ (logged_in_initial t0) Hrun). Qed.

(** X5: in every state the module can reach, however the calls overlapped,
    a handle in the session cache was created by [createSessionHandle] and
    logged in, with a login that succeeded, for an account that has the
    username it is cached under; and no handle is cached under two
    usernames.  Hence whatever [getSession] returns, from the cache or from
    a new login, is a handle whose login succeeded, for the username of the
    account asked for. *)
Theorem cached_handles_logged_in (t0 : Z) (evs : list Event) (st : State) :
  run evs (initial t0) = Some st →
  (∀ u h, sessions (caches st) !! u = Some h →
          (h < created st)%nat ∧
          ∃ a, Account.username a = u ∧ LoginCredentials h a ∈ calls st ∧
               (h, a) ∈ logins evs (initial t0)) ∧
  (∀ u u' h, sessions (caches st) !! u = Some h →
             sessions (caches st) !! u' = Some h → u = u') ∧
  (∀ account login h,
     (getSession account login st).2 = Returned h →
     ∃ a, Account.username a = Account.username account ∧
          LoginCredentials h a ∈ calls (getSession account login st).1 ∧
          ((h, a) ∈ logins evs (initial t0) ∨
           (sessions (caches st) !! Account.username account = None ∧
            login = Resolved () ∧ a = account ∧ h = created st))).
Proof.
  intros Hrun.
  destruct (logged_in_reachable _ _ _ Hrun)
    as (Hcreated & Hunique & Hsusp & Hrecord & Hcached).
  split_and!.
  - intros u h Hu. destruct (Hcached u h Hu) as (a & Ha & Hin).
    split; [by eapply Hcreated, Hrecord|]. exists a. auto.
  - intros u u' h Hu Hu'.
    destruct (Hcached u h Hu) as (a & <- & Hin).
    destruct (Hcached u' h Hu') as (a' & <- & Hin').
    by rewrite (Hunique h a a' (Hrecord _ _ Hin) (Hrecord _ _ Hin')).
  - intros account login h. unfold getSession, getSession_begin.
    destruct (sessions (caches st) !! Account.username account)
      as [cached|] eqn:Hc; simpl.
    + intros [= <-]. destruct (Hcached _ _ Hc) as (a & Ha & Hin).
      exists a. auto.
    + destruct login as [[]|]; simpl; intros [= <-]. exists account.
      split_and!; [done| |by right]. simpl. apply elem_of_app. right.
      apply list_elem_of_here.
Qed.

End Provenance.

Lemma cached_handles_logged_in_witness :
  let evs :=
    [Invoke (GetSession sampleAccount); Invoke (GetSession sampleAccount);
     Settle 1 (LoginReply (Resolved ()));
     Settle 0 (LoginReply (Rejected (MkError "denied")));
     Invoke (GetSession sampleAccount)] in
  ∃ st,
    run (H := sampleImports) evs (initial 0) = Some st ∧
    sessions (caches st) !! "eleve" = Some 1%nat ∧
    logins (H := sampleImports) evs (initial 0) = [(1%nat, sampleAccount)] ∧
    ∃ a, Account.username a = "eleve" ∧ LoginCredentials 1 a ∈ calls st ∧
         (1%nat, a) ∈ logins (H := sampleImports) evs (initial 0).
Proof.
  cbv zeta. eexists. split; [vm_compute; reflexivity|].
  split; [vm_compute; reflexivity|]. split; [vm_compute; reflexivity|].
  destruct (cached_handles_logged_in (H := sampleImports) 0
              [Invoke (GetSession sampleAccount);
               Invoke (GetSession sampleAccount);
               Settle 1 (LoginReply (Resolved ()));
               Settle 0 (LoginReply (Rejected (MkError "denied")));
               Invoke (GetSession sampleAccount)]
              _ ltac:(vm_compute; reflexivity)) as (Hcached & _ & _).
  exact (proj2 (Hcached "eleve" 1%nat ltac:(vm_compute; reflexivity))).
Defined.

(** ** Logins that fail, and accounts that share a username *)

Section Sessions.

Context `{Imports}.

(** X6: when no handle is cached and the login fails, [getSession] throws
    the error of the library; nothing is cached and no timer is scheduled,
    but a handle has been created and a login recorded.  The failure is not
    remembered: the next call creates another handle and logs in again, and
    when that login succeeds it is this second handle that is returned and
    cached. *)
Theorem getSession_failed_login (account : Account.t) (e : Error) (st : State) :
  sessions (caches st) !! Account.username account = None →
  let failed := getSession account (Rejected e) st in
  let retried := getSession account (Resolved ()) failed.1 in
  failed.2 = Thrown e ∧
  caches failed.1 = caches st ∧ timers failed.1 = timers st ∧
  calls failed.1
  = calls st ++ [CreateSessionHandle; LoginCredentials (created st) account] ∧
  retried.2 = Returned (S (created st)) ∧
  sessions (caches retried.1) !! Account.username account
  = Some (S (created st)) ∧
  calls retried.1
  = calls st ++ [CreateSessionHandle; LoginCredentials (created st) account;
                 CreateSessionHandle;
                 LoginCredentials (S (created st)) account].
Proof.
  intros Hmiss. cbv zeta. unfold getSession, getSession_begin.
  rewrite Hmiss. simpl. rewrite Hmiss. simpl.
  split_and!; try done.
  - by rewrite <- app_assoc.
  - by rewrite lookup_insert_eq.
  - by rewrite <- !app_assoc.
Qed.

(** X7: the session cache is keyed by the username alone.  In every state
    the module can reach, when a handle is cached under the username of an
    account, [getSession] for that account returns it, whatever the url and
    the password of the account, and changes nothing: it neither creates a
    session nor logs in.  The handle was logged in with a login that
    succeeded, for one account only, which has that username and need not
    be the account asked for. *)
Theorem getSession_keyed_by_username (t0 : Z) (evs : list Event) (st : State)
    (b : Account.t) (login : Settled unit) (h : SessionHandle) :
  run evs (initial t0) = Some st →
  sessions (caches st) !! Account.username b = Some h →
  getSession b login st = (st, Returned h) ∧
  invoke (GetSession b) st = st ∧
  ∃ a, Account.username a = Account.username b ∧
       (h, a) ∈ logins evs (initial t0) ∧
       ∀ a', LoginCredentials h a' ∈ calls st → a' = a.
Proof.
  intros Hrun Hcached.
  destruct (logged_in_reachable _ _ _ Hrun)
    as (_ & Hunique & _ & Hrecord & Hfrom).
  split_and!.
  - by apply getSession_hit.
  - apply invoke_hit. simpl. by rewrite Hcached.
  - destruct (Hfrom _ _ Hcached) as (a & Ha & Hin).
    exists a. split_and!; [done..|].
    intros a' Hin'. by apply (Hunique h), Hrecord.
Qed.

End Sessions.

Lemma getSession_failed_login_witness :
  let failed :=
    getSession (H := sampleImports) sampleAccount (Rejected (MkError "denied"))
      (initial 0) in
  failed.2 = Thrown (MkError "denied") ∧
  (getSession (H := sampleImports) sampleAccount (Resolved ()) failed.1).2
  = Returned 1%nat.
Proof.
  cbv zeta.
  destruct (getSession_failed_login (H := sampleImports) sampleAccount
              (MkError "denied") (initial 0) eq_refl)
    as (Hthrown & _ & _ & _ & Hretried & _).
  split; [exact Hthrown|exact Hretried].
Defined.

Lemma getSession_keyed_by_username_witness :
  let evs :=
    [Invoke (GetSession sampleAccount); Invoke (GetSession otherAccount);
     Settle 0 (LoginReply (Resolved ())); Elapse 10;
     Settle 0 (LoginReply (Resolved ()))] in
  ∃ st,
    run (H := sampleImports) evs (initial 0) = Some st ∧
    getSession (H := sampleImports) sampleAccount (Rejected (MkError "denied"))
      st = (st, Returned 1%nat) ∧
    LoginCredentials 1 otherAccount ∈ calls st ∧
    LoginCredentials 1 sampleAccount ∉ calls st.
Proof.
  cbv zeta. eexists. split; [vm_compute; reflexivity|].
  destruct (getSession_keyed_by_username (H := sampleImports) 0
              [Invoke (GetSession sampleAccount);
               Invoke (GetSession otherAccount);
               Settle 0 (LoginReply (Resolved ())); Elapse 10;
               Settle 0 (LoginReply (Resolved ()))]
              _ sampleAccount (Rejected (MkError "denied")) 1%nat
              ltac:(vm_compute; reflexivity) ltac:(vm_compute; reflexivity))
    as (Hhit & _ & a & _ & _ & Honly).
  assert (LoginCredentials 1 otherAccount
          ∈ [CreateSessionHandle; LoginCredentials 0 sampleAccount;
             CreateSessionHandle; LoginCredentials 1 otherAccount]) as Hin
    by (do 3 apply list_elem_of_further; apply list_elem_of_here).
  split_and!; [exact Hhit|exact Hin|].
  intros Hin'. apply Honly in Hin, Hin'. by subst a.
Defined.

(** ** Empty answers *)

Section Empty.

Context `{Imports}.

Lemma no_marks_no_grades today subjects :
  (∀ subject, subject ∈ subjects → nullish (Subject.grades subject) [] = []) →
  pushSubjects today [] subjects = [].
Proof.
  intros Hempty. rewrite pushSubjects_app. simpl.
  induction subjects as [|subject subjects IH]; simpl; [done|].
  rewrite (Hempty subject) by apply list_elem_of_here. simpl.
  apply IH. intros subject' Hin. apply Hempty. by apply list_elem_of_further.
Qed.

(** X8: a library call that succeeds with nothing in it gives the caller
    the same value as a call that fails: the empty list for a gradebook
    without marks, for a week without lessons and for an empty list of
    assignments, and zero averages for an overview without averages.  The
    two differ in the cache only: the empty answer is stored and its
    deletion scheduled, so that the next call returns it without calling
    the library, even if the library would fail then. *)
Theorem empty_answer_cached (username : string) (session session' : SessionHandle)
    (e : Error) (st : State) :
  (∀ raw reply,
     grades (caches st) !! username = None →
     (∀ subject, subject ∈ nullish (GradeBook.subjects raw) [] →
                 nullish (Subject.grades subject) [] = []) →
     let fetched := getGrades username session (Resolved raw) st in
     fetched.2 = (getGrades username session (Rejected e) st).2 ∧
     fetched.2 = Returned [] ∧
     grades (caches fetched.1) !! username = Some [] ∧
     getGrades username session' reply fetched.1 = (fetched.1, Returned [])) ∧
  (∀ reply,
     timetable (caches st) !! username = None →
     let fetched := getTimetable username session (Resolved []) st in
     fetched.2 = (getTimetable username session (Rejected e) st).2 ∧
     fetched.2 = Returned [] ∧
     timetable (caches fetched.1) !! username = Some [] ∧
     getTimetable username session' reply fetched.1
     = (fetched.1, Returned [])) ∧
  (∀ reply,
     homeworks (caches st) !! username = None →
     let fetched := getHomeworks username session (Resolved []) st in
     fetched.2 = (getHomeworks username session (Rejected e) st).2 ∧
     fetched.2 = Returned [] ∧
     homeworks (caches fetched.1) !! username = Some [] ∧
     getHomeworks username session' reply fetched.1
     = (fetched.1, Returned [])) ∧
  (∀ reply,
     averages (caches st) !! username = None →
     let zero := Averages.Make (of_Z 0) (of_Z 0) in
     let fetched :=
       getAverages username session (Resolved (Overview.Make None None)) st in
     fetched.2 = (getAverages username session (Rejected e) st).2 ∧
     fetched.2 = Returned zero ∧
     averages (caches fetched.1) !! username = Some zero ∧
     getAverages username session' reply fetched.1
     = (fetched.1, Returned zero)).
Proof.
  split_and!.
  - intros raw reply Hmiss Hempty. cbv zeta.
    assert (getGrades username session (Resolved raw) st
            = (setTimeout (DeleteKey CGrades username) cacheTtl
                 (with_caches (set_grades (insert username []))
                    (call (Gradebook session) st)),
               Returned [])) as ->.
    { unfold getGrades, getGrades_begin. rewrite Hmiss. simpl.
      by rewrite no_marks_no_grades. }
    unfold getGrades at 1, getGrades_begin. rewrite Hmiss. simpl.
    split_and!; [done..|apply lookup_insert_eq|].
    apply getGrades_hit. apply lookup_insert_eq.
  - intros reply Hmiss. cbv zeta.
    assert (getTimetable username session (Resolved []) st
            = (setTimeout (DeleteKey CTimetable username) cacheTtl
                 (with_caches (set_timetable (insert username []))
                    (call (TimetableFromIntervals session) st)),
               Returned [])) as ->
      by (unfold getTimetable, getTimetable_begin; by rewrite Hmiss).
    unfold getTimetable at 1, getTimetable_begin. rewrite Hmiss. simpl.
    split_and!; [done..|apply lookup_insert_eq|].
    apply getTimetable_hit. apply lookup_insert_eq.
  - intros reply Hmiss. cbv zeta.
    assert (getHomeworks username session (Resolved []) st
            = (setTimeout (DeleteKey CHomeworks username) cacheTtl
                 (with_caches (set_homeworks (insert username []))
                    (call (AssignmentsFromIntervals session) st)),
               Returned [])) as ->
      by (unfold getHomeworks, getHomeworks_begin; by rewrite Hmiss).
    unfold getHomeworks at 1, getHomeworks_begin. rewrite Hmiss. simpl.
    split_and!; [done..|apply lookup_insert_eq|].
    apply getHomeworks_hit. apply lookup_insert_eq.
  - intros reply Hmiss. cbv zeta.
    assert (getAverages username session
              (Resolved (Overview.Make None None)) st
            = (setTimeout (DeleteKey CAverages username) cacheTtl
                 (with_caches
                    (set_averages
                       (insert username (Averages.Make (of_Z 0) (of_Z 0))))
                    (call (GradesOverview session) st)),
               Returned (Averages.Make (of_Z 0) (of_Z 0)))) as ->
      by (unfold getAverages, getAverages_begin; by rewrite Hmiss).
    unfold getAverages at 1, getAverages_begin. rewrite Hmiss. simpl.
    split_and!; [done..|apply lookup_insert_eq|].
    apply getAverages_hit. apply lookup_insert_eq.
Qed.

End Empty.

Lemma empty_answer_cached_witness :
  let fetched :=
    getTimetable (H := sampleImports) "eleve" 0 (Resolved []) (initial 0) in
  fetched.2 = Returned [] ∧
  getTimetable (H := sampleImports) "eleve" 0 (Rejected (MkError "offline"))
    fetched.1 = (fetched.1, Returned []).
Proof.
  cbv zeta.
  destruct (empty_answer_cached (H := sampleImports) "eleve" 0 0
              (MkError "offline") (initial 0)) as (_ & Htimetable & _).
  destruct (Htimetable (Rejected (MkError "offline")) eq_refl)
    as (_ & Hempty & _ & Hagain).
  split; [exact Hempty|exact Hagain].
Defined.

(** ** What every returned grade and homework satisfies *)

Section Soundness.

Context `{Imports}.

Lemma or_else_truthy (a : option number) (d : number) :
  truthy_number d = true → truthy_number (or_else truthy_number a d) = true.
Proof.
  intros Hd. destruct a as [n|]; simpl; [|done].
  by destruct (truthy_number n) eqn:Hn.
Qed.

Lemma gradeOf_sound today subject mark : sound_grade (gradeOf today subject mark).
Proof. split_and!; simpl; [done|by apply or_else_truthy..]. Qed.

Lemma pushSubjects_sound today subjects :
  Forall sound_grade (pushSubjects today [] subjects).
Proof.
  rewrite pushSubjects_app. simpl. apply Forall_forall.
  intros g Hg%list_elem_of_In. apply in_flat_map in Hg as (subject & _ & Hg).
  apply in_map_iff in Hg as (mark & <- & _). apply gradeOf_sound.
Qed.

Lemma homeworkOf_sound today v : sound_homework (homeworkOf today v).
Proof. reflexivity. Qed.

Lemma fire_sound cb cs :
  grades_sound cs ∧ homeworks_sound cs →
  grades_sound (fire cb cs) ∧ homeworks_sound (fire cb cs).
Proof.
  intros [Hg Hh]. destruct cb as [|c key]; [done|].
  destruct c; simpl; try done; split; try done;
    intros username cached; simpl;
    intros [_ Hcached]%lookup_delete_Some; eauto.
Qed.

Lemma fire_all_sound (due : list Timer.t) cs :
  grades_sound cs ∧ homeworks_sound cs →
  grades_sound (foldl (λ cs tm, fire (Timer.callback tm) cs) cs due) ∧
  homeworks_sound (foldl (λ cs tm, fire (Timer.callback tm) cs) cs due).
Proof.
  revert cs. induction due as [|tm due IH]; intros cs Hcs; simpl; [done|].
  by apply IH, fire_sound.
Qed.

Lemma resume_sound s r st st' :
  grades_sound (caches st) ∧ homeworks_sound (caches st) →
  resume s r st = Some st' →
  grades_sound (caches st') ∧ homeworks_sound (caches st').
Proof.
  intros [Hg Hh].
  destruct s as [account session|username|username|username|username],
           r as [[]|[raw|]|[]|[raw|]|[]];
    simpl; intros [= <-]; simpl; try done; split; try done;
    intros username' cached; simpl;
    (destruct (decide (username = username')) as [<-|Hne];
     [rewrite lookup_insert_eq; intros [= <-]
     |rewrite lookup_insert_ne by done; eauto]).
  - apply pushSubjects_sound.
  - apply Forall_forall. intros h Hh'%list_elem_of_In.
    apply in_map_iff in Hh' as (v & <- & _). apply homeworkOf_sound.
Qed.

Lemma step_sound e st st' :
  grades_sound (caches st) ∧ homeworks_sound (caches st) →
  step e st = Some st' →
  grades_sound (caches st') ∧ homeworks_sound (caches st').
Proof.
  intros Hst. destruct e as [r|i r|d]; simpl.
  - intros [= <-]. by destruct (invoke_frame r st) as (-> & _).
  - unfold settle. destruct (suspended st !! i) as [s|]; [|done].
    by apply resume_sound.
  - case_decide; [|done]. intros [= <-]. by apply fire_all_sound.
Qed.

Lemma run_sound evs st st' :
  grades_sound (caches st) ∧ homeworks_sound (caches st) →
  run evs st = Some st' →
  grades_sound (caches st') ∧ homeworks_sound (caches st').
Proof.
  revert st. induction evs as [|e evs IH]; intros st Hst; simpl.
  - by intros [= <-].
  - destruct (step e st) as [st1|] eqn:Hstep; [|done].
    apply IH. by eapply step_sound.
Qed.

Lemma initial_sound t0 :
  grades_sound (caches (initial t0)) ∧ homeworks_sound (caches (initial t0)).
Proof. split; intros username cached; simpl; by rewrite lookup_empty. Qed.

(** X9: in every state the module can reach, each grade that [getGrades]
    returns, fetched or served from the cache and whatever the library
    replied, carries the hash of its own fields and has a coefficient, a
    scale and a best mark that are neither 0 nor NaN: dividing a value by
    the scale or weighting by the coefficient is always safe. *)
Theorem getGrades_returns_sound_grades (t0 : Z) (evs : list Event) (st : State)
    (username : string) (session : SessionHandle)
    (reply : Settled GradeBook.t) (result : list Grade.t) (g : Grade.t) :
  run evs (initial t0) = Some st →
  (getGrades username session reply st).2 = Returned result → g ∈ result →
  Grade.hash g = hashGrade g ∧
  (∀ field, field ∈ [Grade.coefficient g; Grade.scale g; Grade.best g] →
            field ≠ NaN ∧ ∀ q, field = Num q → Qnum q ≠ 0).
Proof.
  intros Hrun Hret Hg.
  destruct (run_sound _ _ _ (initial_sound t0) Hrun) as [Hsound _].
  assert (sound_grade g) as (Hhash & Hc & Hs & Hb).
  { revert Hret. unfold getGrades, getGrades_begin.
    destruct (grades (caches st) !! username) as [cached|] eqn:Hcached; simpl.
    - intros [= <-]. specialize (Hsound username cached Hcached).
      rewrite Forall_forall in Hsound. by apply Hsound.
    - intros [= <-]. pose proof (pushSubjects_sound (now st)
        (nullish (chain (catch_null reply) GradeBook.subjects) [])) as Hall.
      rewrite Forall_forall in Hall. by apply Hall. }
  split; [done|].
  assert (∀ n, truthy_number n = true →
               n ≠ NaN ∧ ∀ q, n = Num q → Qnum q ≠ 0) as Htruthy.
  { intros [|q] Hn; simpl in Hn; [done|]. split; [done|].
    intros q' [= <-]. intros Hzero. rewrite Hzero in Hn. done. }
  intros field Hfield.
  repeat (apply elem_of_cons in Hfield as [->|Hfield]); [by apply Htruthy..|].
  by apply elem_of_nil in Hfield.
Qed.

(** X10: in every state the module can reach, each homework that
    [getHomeworks] returns, fetched or served from the cache, carries the
    hash of its own fields. *)
Theorem getHomeworks_returns_hashed_homeworks (t0 : Z) (evs : list Event)
    (st : State) (username : string) (session : SessionHandle)
    (reply : Settled (list Assignment.t)) (result : list Homework.t)
    (h : Homework.t) :
  run evs (initial t0) = Some st →
  (getHomeworks username session reply st).2 = Returned result → h ∈ result →
  Homework.hash h = hashHomework h.
Proof.
  intros Hrun Hret Hh.
  destruct (run_sound _ _ _ (initial_sound t0) Hrun) as [_ Hsound].
  revert Hret. unfold getHomeworks, getHomeworks_begin.
  destruct (homeworks (caches st) !! username) as [cached|] eqn:Hcached; simpl.
  - intros [= <-]. specialize (Hsound username cached Hcached).
    rewrite Forall_forall in Hsound. by apply Hsound.
  - intros [= <-]. destruct reply as [raw|]; simpl in Hh.
    + apply list_elem_of_In, in_map_iff in Hh as (v & <- & _). done.
    + by apply elem_of_nil in Hh.
Qed.

End Soundness.

Lemma getGrades_returns_sound_grades_witness :
  ∃ g : Grade.t,
    (getGrades (H := sampleImports) "eleve" 0 (Resolved sampleGradeBook)
       (initial 0)).2 = Returned [g] ∧
    Grade.hash g = hashGrade (Imports := sampleImports) g ∧
    Grade.scale g ≠ NaN.
Proof.
  eexists. split; [reflexivity|].
  destruct (getGrades_returns_sound_grades (H := sampleImports) 0 [] (initial 0)
              "eleve" 0 (Resolved sampleGradeBook) _ _
              eq_refl eq_refl (list_elem_of_here _ _)) as [Hhash Hfields].
  split; [exact Hhash|].
  apply Hfields. apply list_elem_of_further, list_elem_of_here.
Defined.

Lemma getHomeworks_returns_hashed_homeworks_witness :
  ∃ h : Homework.t,
    (getHomeworks (H := sampleImports) "eleve" 0 (Resolved [sampleAssignment])
       (initial 0)).2 = Returned [h] ∧
    Homework.hash h = hashHomework (Imports := sampleImports) h.
Proof.
  eexists. split; [reflexivity|].
  exact (getHomeworks_returns_hashed_homeworks (H := sampleImports) 0 []
           (initial 0) "eleve" 0 (Resolved [sampleAssignment]) _ _
           eq_refl eq_refl (list_elem_of_here _ _)).
Defined.

(** ** Calls keep to their own key *)

Section Isolation.

Context `{Imports}.

Ltac own_key_only Hne :=
  match goal with
  | |- context [?m !! ?k] => destruct (m !! k); [done|]
  end;
  match goal with
  | |- context [catch_null ?reply] => destruct reply; simpl; [|done]
  | |- context [getSession_resume _ _ ?login] =>
      destruct login; simpl; [|done]
  end;
  match goal with
  | |- lookup_entry ?c _ _ = _ => destruct c; simpl; try done
  end;
  rewrite lookup_insert_ne; [done|congruence].

(** X11: a call changes no entry but the one under its own key: whatever
    the library replies, [getSession] leaves the other usernames' handles
    and the four data caches as they are, and each of [getGrades],
    [getTimetable], [getHomeworks] and [getAverages] leaves the other
    usernames' entries of its cache and all the other caches as they are. *)
Theorem calls_change_their_own_key_only (c : CacheName) (key : string)
    (st : State) :
  (∀ account login,
     (c, key) ≠ (CSessions, Account.username account) →
     lookup_entry c key (caches (getSession account login st).1)
     = lookup_entry c key (caches st)) ∧
  (∀ username session reply,
     (c, key) ≠ (CGrades, username) →
     lookup_entry c key (caches (getGrades username session reply st).1)
     = lookup_entry c key (caches st)) ∧
  (∀ username session reply,
     (c, key) ≠ (CTimetable, username) →
     lookup_entry c key (caches (getTimetable username session reply st).1)
     = lookup_entry c key (caches st)) ∧
  (∀ username session reply,
     (c, key) ≠ (CHomeworks, username) →
     lookup_entry c key (caches (getHomeworks username session reply st).1)
     = lookup_entry c key (caches st)) ∧
  (∀ username session reply,
     (c, key) ≠ (CAverages, username) →
     lookup_entry c key (caches (getAverages username session reply st).1)
     = lookup_entry c key (caches st)).
Proof.
  split_and!.
  - intros account login Hne. unfold getSession, getSession_begin.
    own_key_only Hne.
  - intros username session reply Hne. unfold getGrades, getGrades_begin.
    own_key_only Hne.
  - intros username session reply Hne. unfold getTimetable, getTimetable_begin.
    own_key_only Hne.
  - intros username session reply Hne. unfold getHomeworks, getHomeworks_begin.
    own_key_only Hne.
  - intros username session reply Hne. unfold getAverages, getAverages_begin.
    own_key_only Hne.
Qed.

(** X12: calls are not merged.  When a second call for a key is made while
    the first is still waiting for the library, the key being absent from
    its cache, the second calls the library as well: both are suspended, the
    record of library calls grows with each, and for [getSession] two
    handles are created. *)
Theorem overlapping_calls_both_call_library (r : Request) (st : State) :
  lookup_entry (request_target r).1 (request_target r).2 (caches st) = None →
  let st1 := invoke r st in
  let st2 := invoke r st1 in
  ∃ s1 s2,
    suspended st2 = suspended st ++ [s1; s2] ∧
    target s1 = request_target r ∧ target s2 = request_target r ∧
    (length (calls st) < length (calls st1) < length (calls st2))%nat ∧
    (∀ account, r = GetSession account →
                created st2 = S (S (created st)) ∧
                s1 = AwaitLogin account (created st) ∧
                s2 = AwaitLogin account (S (created st))).
Proof.
  intros Hmiss. cbv zeta.
  destruct r as [account|username session|username session
                |username session|username session];
    simpl in Hmiss; apply fmap_None in Hmiss; simpl;
    unfold getSession_begin, getGrades_begin, getTimetable_begin,
      getHomeworks_begin, getAverages_begin; rewrite Hmiss; simpl;
    rewrite Hmiss; simpl;
    (eexists _, _; split_and!;
     [by rewrite <- app_assoc|done|done
     |rewrite ?length_app; simpl; lia|rewrite ?length_app; simpl; lia|]).
  - intros account' [= <-]. done.
  - intros account' [=].
  - intros account' [=].
  - intros account' [=].
  - intros account' [=].
Qed.

End Isolation.

Lemma calls_change_their_own_key_only_witness :
  let st :=
    (getGrades (H := sampleImports) "eleve" 0 (Resolved sampleGradeBook)
       (initial 0)).1 in
  lookup_entry CGrades "eleve"
    (caches (getGrades (H := sampleImports) "autre" 0
               (Resolved (GradeBook.Make None)) st).1)
  = lookup_entry CGrades "eleve" (caches st).
Proof.
  cbv zeta.
  destruct (calls_change_their_own_key_only (H := sampleImports) CGrades "eleve"
              (getGrades (H := sampleImports) "eleve" 0
                 (Resolved sampleGradeBook) (initial 0)).1)
    as (_ & Hgrades & _).
  exact (Hgrades "autre" 0%nat (Resolved (GradeBook.Make None)) ltac:(done)).
Defined.

Lemma overlapping_calls_both_call_library_witness :
  let st2 :=
    invoke (GetSession sampleAccount)
      (invoke (GetSession sampleAccount) (initial 0)) in
  suspended st2 = [AwaitLogin sampleAccount 0; AwaitLogin sampleAccount 1] ∧
  created st2 = 2%nat.
Proof.
  cbv zeta.
  destruct (overlapping_calls_both_call_library (GetSession sampleAccount)
              (initial 0) eq_refl) as (s1 & s2 & Hsusp & _ & _ & _ & Hsession).
  destruct (Hsession sampleAccount eq_refl) as (Hcreated & -> & ->).
  split; [exact Hsusp|exact Hcreated].
Defined.

(** ** What the helper script prints *)

Module TaskListsConsole.

Import TaskLists.

(** X13: when the response has at least one list, [getTaskListId] prints
    the heading, then every list of the response once, in order and
    numbered from 1 with its title and identifier, then the recommended
    identifier, which is the value it returns and the identifier of a list
    of the response, and last the hint to copy it. *)
Theorem getTaskListId_console (first : TaskList) (others : list TaskList) :
  let items := first :: others in
  let '(console, returned) := getTaskListId (Response (Some items)) in
  length console = (length items + 3)%nat ∧
  console !! 0%nat = Some AvailableTaskLists ∧
  (∀ i l, items !! i = Some l →
          console !! S i = Some (Numbered (i + 1) (title l) (id l))) ∧
  console !! S (length items) = Some (RecommendedTaskListId returned) ∧
  console !! S (S (length items)) = Some CopyThisId ∧
  ∃ l, l ∈ items ∧ returned = id l.
Proof.
  cbv zeta. unfold getTaskListId. set (items := first :: others).
  set (numbered :=
         imap (λ index l, Numbered (index + 1) (title l) (id l)) items).
  assert (length numbered = length items) as Hlen by apply length_imap.
  assert (∃ chosen, chosen ∈ items ∧
            match List.find isDefault items with
            | Some l => Some l
            | None => head items
            end = Some chosen) as (chosen & Hin & ->).
  { destruct (List.find isDefault items) as [l|] eqn:Hfind.
    - exists l. split; [|done].
      apply List.find_some in Hfind as [Hl _]. by apply list_elem_of_In.
    - exists first. split; [apply list_elem_of_here|done]. }
  assert (∀ i l, items !! i = Some l →
                 numbered !! i = Some (Numbered (i + 1) (title l) (id l)))
    as Hnumbered.
  { intros i l Hl. subst numbered. by rewrite list_lookup_imap, Hl. }
  cbv beta iota. clearbody numbered. clearbody items.
  change ((AvailableTaskLists :: numbered) ++ ?rest)
    with (AvailableTaskLists :: (numbered ++ rest)).
  split_and!.
  - rewrite length_cons, length_app, Hlen. simpl. lia.
  - done.
  - intros i l Hl. rewrite lookup_cons_ne_0 by done. simpl.
    rewrite lookup_app_l by (rewrite Hlen; by eapply lookup_lt_Some).
    by apply Hnumbered.
  - rewrite lookup_cons_ne_0 by done. simpl.
    rewrite lookup_app_r by lia. by rewrite Hlen, Nat.sub_diag.
  - rewrite lookup_cons_ne_0 by done. simpl.
    rewrite lookup_app_r by lia.
    replace (S (length items) - length numbered)%nat with 1%nat by lia. done.
  - by exists chosen.
Qed.

End TaskListsConsole.
